(** * FaceForge real-time streaming: sessions, registry and dispatcher

    A shallow embedding of [backend/realtime/stream_handler.py] and of the
    listing route of [backend/api/routes/websocket.py].

    Python objects live in an object store, and the registry maps a session
    identifier to a reference into it, so that a coroutine holding a
    [session] reference and a registry lookup see the same object.  The
    libraries the code calls (OpenCV, InsightFace, [json]) are an interface
    the development is parametrised by; the wall clock is an argument. *)

From Stdlib Require Import ZArith QArith Qcanon Lia List.
From Stdlib.Strings Require Import Byte Ascii String.
From stdpp Require Import base option list strings gmap numbers.

#[local] Set Warnings "-register-all".
Local Open Scope string_scope.

(** ** Values *)

(** A Python [bytes] object. *)
Abbreviation bytes := (list Byte.byte).

#[global] Instance byte_eq_dec : EqDecision Byte.byte := Byte.byte_eq_dec.

(** A call into a library either returns or raises; the code only ever
    catches [Exception] wholesale, so the exception's class is dropped. *)
Inductive outcome (A : Type) : Type :=
  | Ret (a : A)
  | Raise.
Arguments Ret {A} a.
Arguments Raise {A}.

(** Python's [time.time()] returns a float; the model reads it as an exact
    rational, which decides the same comparisons and the same zero test. *)
Abbreviation timestamp := Qc.

(** JSON values, as [json.loads] produces them and [send_json] takes them.
    A [JObj] carries the items of the Python dict (keys pairwise distinct). *)
Inductive json : Type :=
  | JNull
  | JBool (b : bool)
  | JInt (z : Z)
  | JFloat (q : Qc)
  | JStr (s : string)
  | JArr (l : list json)
  | JObj (items : list (string * json)).

(** [d.get(key)] on the items of a dict. *)
Fixpoint dict_get (items : list (string * json)) (key : string) : option json :=
  match items with
  | [] => None
  | (k, v) :: rest => if decide (k = key) then Some v else dict_get rest key
  end.

(** Python's [round(x, 1)]: to the nearest tenth, ties to even. *)
Definition round1 (x : Qc) : Qc :=
  let n := (Qnum (this x) * 10)%Z in
  let d := Z.pos (Qden (this x)) in
  let fl := (n / d)%Z in
  let r := (n mod d)%Z in
  let up :=
    match (2 * r ?= d)%Z with
    | Lt => false
    | Gt => true
    | Eq => Z.odd fl
    end in
  Q2Qc (Qmake (if up then fl + 1 else fl) 10).

(** ** The libraries behind the code *)

(** What [core.face_swap._init_models] does when it runs: it binds both
    globals, or fails before binding any ([insightface] missing, or
    [FaceAnalysis] fails), or binds [_face_analysis] and then raises because
    the swapper model file is absent. *)
Inductive init_result := InitOk | InitNothing | InitNoSwapper.

Class Libraries := {
  (** [np.ndarray], a decoded image *)
  ndarray : Type;
  (** an InsightFace face, with its embedding *)
  Face : Type;
  (** [cv2.imdecode(np.frombuffer(data, np.uint8), cv2.IMREAD_COLOR)]:
      [None] when the bytes are no image, and OpenCV raises on some
      buffers (the empty one) *)
  imdecode : bytes → outcome (option ndarray);
  (** [cv2.imencode('.jpg', img, [cv2.IMWRITE_JPEG_QUALITY, 85])] followed by
      [buffer.tobytes()], which does not fail on the array returned *)
  imencode : ndarray → outcome bytes;
  (** [_face_analysis.get(img)] of an initialised analyser *)
  face_analysis_get : ndarray → outcome (list Face);
  (** [_swapper.get(frame, face, target, paste_back=True)] *)
  swapper_get : ndarray → Face → Face → outcome ndarray;
  (** whether [from core.face_swap import ...] succeeds *)
  face_swap_importable : bool;
  (** the effect of [_init_models(models_path)] on this installation *)
  init_models_result : init_result;
  (** [json.loads]; [None] stands for [json.JSONDecodeError] *)
  json_loads : string → option json;
}.

(** The module globals [_face_analysis] and [_swapper] of [core.face_swap]:
    [false] is [None]. *)
Record FaceSwapGlobals := {
  _face_analysis : bool;
  _swapper : bool;
}.

(** [_init_models]: returns at once when [_face_analysis] is bound. The
    boolean tells whether the call raised. *)
Definition _init_models `{Libraries} (g : FaceSwapGlobals) : FaceSwapGlobals * bool :=
  if _face_analysis g then (g, false)
  else
    match init_models_result with
    | InitOk => ({| _face_analysis := true; _swapper := true |}, false)
    | InitNothing => (g, true)
    | InitNoSwapper => ({| _face_analysis := true; _swapper := _swapper g |}, true)
    end.

(** ** Sessions and the manager *)

(** A WebSocket connection handle. *)
Abbreviation WebSocket := nat.

(** A reference to a session object. *)
Abbreviation loc := nat.

Section Model.
Context `{Libs : Libraries}.

(** The dataclass [StreamSession]. [_target_embedding] is the attribute that
    [_process_frame_internal] adds to the object on first use; [None] here
    means that [hasattr(session, '_target_embedding')] is false. *)
Record StreamSession := {
  websocket : WebSocket;
  target_face : option ndarray;
  is_processing : bool;
  frames_processed : nat;
  last_frame_time : timestamp;
  fps : Qc;
  _target_embedding : option Face;
}.

(** [StreamSession(websocket=websocket)] *)
Definition new_session (ws : WebSocket) : StreamSession :=
  {| websocket := ws; target_face := None; is_processing := false;
     frames_processed := 0; last_frame_time := 0%Qc; fps := 0%Qc;
     _target_embedding := None |}.

(** [StreamManager]: the dict [self.sessions], the session objects it and
    the running coroutines refer to, and the globals of [core.face_swap]
    that frame processing reads and initialises. Objects are never removed
    from the store (a reference stays valid while somebody holds it). *)
Record StreamManager := {
  sessions : gmap string loc;
  heap : list StreamSession;
  face_swap : FaceSwapGlobals;
}.

(** [StreamManager()] at import time. *)
Definition stream_manager : StreamManager :=
  {| sessions := ∅; heap := [];
     face_swap := {| _face_analysis := false; _swapper := false |} |}.

(** Every registered reference points into the store. *)
Definition wf (m : StreamManager) : Prop :=
  map_Forall (λ _ l, l < length (heap m)) (sessions m).

#[export] Instance wf_dec (m : StreamManager) : Decision (wf m) := _.

(** [self.sessions.get(session_id)] followed by reading the object. *)
Definition get_session (m : StreamManager) (session_id : string)
  : option (loc * StreamSession) :=
  l ← sessions m !! session_id; s ← heap m !! l; Some (l, s).

(** In-place update of the object behind a reference. *)
Definition update (m : StreamManager) (l : loc) (f : StreamSession → StreamSession)
  : StreamManager :=
  {| sessions := sessions m; heap := alter f l (heap m); face_swap := face_swap m |}.

(** The object behind [l] after a coroutine step that also touched the
    globals of [core.face_swap]. *)
Definition store (m : StreamManager) (g : FaceSwapGlobals) (l : loc)
    (s : StreamSession) : StreamManager :=
  {| sessions := sessions m; heap := <[l := s]> (heap m); face_swap := g |}.

Definition set_target_face_field (img : ndarray) (s : StreamSession) : StreamSession :=
  {| websocket := websocket s; target_face := Some img;
     is_processing := is_processing s; frames_processed := frames_processed s;
     last_frame_time := last_frame_time s; fps := fps s;
     _target_embedding := _target_embedding s |}.

Definition set_is_processing (b : bool) (s : StreamSession) : StreamSession :=
  {| websocket := websocket s; target_face := target_face s;
     is_processing := b; frames_processed := frames_processed s;
     last_frame_time := last_frame_time s; fps := fps s;
     _target_embedding := _target_embedding s |}.

Definition set_target_embedding (e : Face) (s : StreamSession) : StreamSession :=
  {| websocket := websocket s; target_face := target_face s;
     is_processing := is_processing s; frames_processed := frames_processed s;
     last_frame_time := last_frame_time s; fps := fps s;
     _target_embedding := Some e |}.

Definition incr_frames_processed (s : StreamSession) : StreamSession :=
  {| websocket := websocket s; target_face := target_face s;
     is_processing := is_processing s; frames_processed := frames_processed s + 1;
     last_frame_time := last_frame_time s; fps := fps s;
     _target_embedding := _target_embedding s |}.

Definition set_fps (x : Qc) (s : StreamSession) : StreamSession :=
  {| websocket := websocket s; target_face := target_face s;
     is_processing := is_processing s; frames_processed := frames_processed s;
     last_frame_time := last_frame_time s; fps := x;
     _target_embedding := _target_embedding s |}.

Definition set_last_frame_time (t : timestamp) (s : StreamSession) : StreamSession :=
  {| websocket := websocket s; target_face := target_face s;
     is_processing := is_processing s; frames_processed := frames_processed s;
     last_frame_time := t; fps := fps s;
     _target_embedding := _target_embedding s |}.

(** [StreamManager.connect]: [websocket.accept()], then a new session object
    bound to [session_id], whatever was bound to it before. *)
Definition connect (m : StreamManager) (ws : WebSocket) (session_id : string)
  : StreamManager * loc :=
  let l := length (heap m) in
  ({| sessions := <[session_id := l]> (sessions m);
      heap := (heap m ++ [new_session ws])%list;
      face_swap := face_swap m |}, l).

(** [StreamManager.disconnect] *)
Definition disconnect (m : StreamManager) (session_id : string) : StreamManager :=
  match sessions m !! session_id with
  | Some _ =>
      {| sessions := delete session_id (sessions m); heap := heap m;
         face_swap := face_swap m |}
  | None => m
  end.

(** [StreamManager.set_target_face] *)
Definition set_target_face (m : StreamManager) (session_id : string)
    (face_data : bytes) : StreamManager * bool :=
  match sessions m !! session_id with
  | None => (m, false)
  | Some l =>
      match imdecode face_data with
      | Raise => (m, false)
      | Ret None => (m, false)
      | Ret (Some img) => (update m l (set_target_face_field img), true)
      end
  end.

(** [StreamManager._process_frame_internal]. The function catches every
    exception and returns the frame it was given, so it always returns; it
    mutates the session (the cached embedding) and the globals of
    [core.face_swap] (lazy initialisation).

    [from core.face_swap import _face_analysis, _swapper] binds the local
    names to the values the globals have at that moment: when the models
    were not initialised yet, [_init_models] rebinds the globals only, and
    the first [_face_analysis.get] of this call fails on [None]. *)
Definition _process_frame_internal (g : FaceSwapGlobals) (session : StreamSession)
    (frame : ndarray) : FaceSwapGlobals * StreamSession * ndarray :=
  match target_face session with
  | None => (g, session, frame)
  | Some target =>
      if negb face_swap_importable then (g, session, frame)
      else
        let analysis := _face_analysis g in
        let swapper := _swapper g in
        if negb analysis then (fst (_init_models g), session, frame)
        else
          let cached :=
            match _target_embedding session with
            | Some e => Some (session, e)
            | None =>
                match face_analysis_get target with
                | Ret (f :: _) => Some (set_target_embedding f session, f)
                | Ret [] => None
                | Raise => None
                end
            end in
          match cached with
          | None => (g, session, frame)
          | Some (session', embedding) =>
              match face_analysis_get frame with
              | Ret (f :: _) =>
                  if negb swapper then (g, session', frame)
                  else
                    match swapper_get frame f embedding with
                    | Ret result => (g, session', result)
                    | Raise => (g, session', frame)
                    end
              | Ret [] => (g, session', frame)
              | Raise => (g, session', frame)
              end
          end
  end.

(** [StreamManager.process_frame] has one suspension point, the [await] of
    [_process_frame_internal]: another coroutine of the event loop can run
    there and nowhere else. [process_frame_begin] is the code up to it. *)
Inductive begun :=
  | Finished (result : option bytes)
  | Awaiting (session : loc) (frame : ndarray).

Definition process_frame_begin (m : StreamManager) (session_id : string)
    (frame_data : bytes) : StreamManager * begun :=
  match get_session m session_id with
  | None => (m, Finished None)
  | Some (l, session) =>
      if is_processing session then (m, Finished None)
      else
        let m1 := update m l (set_is_processing true) in
        match imdecode frame_data with
        | Ret (Some frame) => (m1, Awaiting l frame)
        | Ret None => (update m1 l (set_is_processing false), Finished None)
        | Raise => (update m1 l (set_is_processing false), Finished None)
        end
  end.

(** The rest of [process_frame], from the [await] to the [finally] clause;
    [now] is what [time.time()] returns in the statistics update. *)
Definition process_frame_resume (m : StreamManager) (l : loc) (frame : ndarray)
    (now : timestamp) : StreamManager * option bytes :=
  match heap m !! l with
  | None => (m, None)
  | Some session =>
      let '(g, s1, processed) := _process_frame_internal (face_swap m) session frame in
      match imencode processed with
      | Raise => (store m g l (set_is_processing false s1), None)
      | Ret buffer =>
          let s2 := incr_frames_processed s1 in
          if decide (0 < last_frame_time s2)%Qc then
            if decide (now - last_frame_time s2 = 0)%Qc then
              (* ZeroDivisionError, caught by [except Exception] *)
              (store m g l (set_is_processing false s2), None)
            else
              let s3 := set_fps (1 / (now - last_frame_time s2))%Qc s2 in
              (store m g l (set_is_processing false (set_last_frame_time now s3)),
               Some buffer)
          else
            (store m g l (set_is_processing false (set_last_frame_time now s2)),
             Some buffer)
      end
  end.

(** [process_frame] when nothing else runs at its suspension point. *)
Definition process_frame (m : StreamManager) (session_id : string)
    (frame_data : bytes) (now : timestamp) : StreamManager * option bytes :=
  match process_frame_begin m session_id frame_data with
  | (m1, Finished result) => (m1, result)
  | (m1, Awaiting l frame) => process_frame_resume m1 l frame now
  end.

(** Frames sent one after the other, each processed to its end before the
    next one arrives; every frame comes with the clock reading of its
    statistics update. *)
Fixpoint process_frames (m : StreamManager) (session_id : string)
    (frames : list (bytes * timestamp)) : StreamManager * list (option bytes) :=
  match frames with
  | [] => (m, [])
  | (frame_data, now) :: rest =>
      let '(m1, result) := process_frame m session_id frame_data now in
      let '(m2, results) := process_frames m1 session_id rest in
      (m2, result :: results)
  end.

(** [StreamManager.get_stats]: the items of the returned dict. *)
Definition get_stats (m : StreamManager) (session_id : string)
  : list (string * json) :=
  match get_session m session_id with
  | None => []
  | Some (_, session) =>
      [("frames_processed", JInt (Z.of_nat (frames_processed session)));
       ("fps", JFloat (round1 (fps session)));
       ("has_target_face", JBool (bool_decide (is_Some (target_face session))))]
  end.

(** ** The dispatcher *)

(** What [websocket.receive()] returns: the ASGI message type and the
    [bytes] and [text] keys, [None] for a key that is absent. *)
Record Message := {
  msg_type : string;
  msg_bytes : option bytes;
  msg_text : option string;
}.

(** What the handler writes to the connection. *)
Inductive sent :=
  | send_json (j : json)
  | send_bytes (b : bytes).

(** How one turn of the [while True] loop ends: with the next turn, with
    [break], or with an exception that no clause of the handler catches. *)
Inductive control := Next | Break | Propagate.

(** [b"FACE"] *)
Definition FACE : bytes := [x46; x41; x43; x45].

(** The body of the loop of [websocket_stream_handler], for one received
    message: the new state, what is written to the connection, in order,
    and how the turn ends. Writing to the connection is taken to succeed. *)
Definition on_message (m : StreamManager) (session_id : string)
    (message : Message) (now : timestamp) : StreamManager * list sent * control :=
  if decide (msg_type message = "websocket.disconnect") then (m, [], Break)
  else
    match msg_bytes message with
    | Some frame_data =>
        if decide (take 4 frame_data = FACE) then
          let '(m1, success) := set_target_face m session_id (drop 4 frame_data) in
          (m1, [send_json (JObj [("type", JStr "face_set");
                                 ("success", JBool success)])], Next)
        else
          let '(m1, result) := process_frame m session_id frame_data now in
          match result with
          | Some (b :: rest) => (m1, [send_bytes (b :: rest)], Next)
          | Some [] => (m1, [], Next)
          | None => (m1, [], Next)
          end
    | None =>
        match msg_text message with
        | Some text =>
            match json_loads text with
            | None => (m, [], Next)
            | Some (JObj items) =>
                match dict_get items "command" with
                | Some (JStr cmd) =>
                    if decide (cmd = "stats") then
                      (m, [send_json (JObj (("type", JStr "stats")
                                            :: get_stats m session_id))], Next)
                    else if decide (cmd = "ping") then
                      (m, [send_json (JObj [("type", JStr "pong")])], Next)
                    else (m, [], Next)
                | _ => (m, [], Next)
                end
            | Some _ =>
                (* [data.get] on a value that is no dict: AttributeError *)
                (m, [], Propagate)
            end
        | None => (m, [], Next)
        end
    end.

(** Where the handler stands after the messages received so far. *)
Inductive handler_state :=
  | Receiving   (* suspended in [websocket.receive()] *)
  | Returned    (* left the loop by [break]; the [finally] clause ran *)
  | Failed.     (* an exception left the handler; the [finally] clause ran *)

(** The loop, over the messages received so far, each with the clock
    reading of its turn. *)
Fixpoint handler_loop (m : StreamManager) (session_id : string)
    (incoming : list (Message * timestamp))
  : StreamManager * list sent * handler_state :=
  match incoming with
  | [] => (m, [], Receiving)
  | (message, now) :: rest =>
      match on_message m session_id message now with
      | (m1, out, Next) =>
          let '(m2, out', st) := handler_loop m1 session_id rest in
          (m2, (out ++ out')%list, st)
      | (m1, out, Break) => (disconnect m1 session_id, out, Returned)
      | (m1, out, Propagate) => (disconnect m1 session_id, out, Failed)
      end
  end.

(** [websocket_stream_handler] *)
Definition websocket_stream_handler (m : StreamManager) (ws : WebSocket)
    (session_id : string) (incoming : list (Message * timestamp))
  : StreamManager * list sent * handler_state :=
  handler_loop (fst (connect m ws session_id)) session_id incoming.

(** [list_stream_sessions]: the number of sessions and, for each identifier
    of the dict, its statistics. *)
Definition list_stream_sessions (m : StreamManager)
  : nat * list (string * list (string * json)) :=
  (size (sessions m),
   (λ sid, (sid, get_stats m sid)) <$> (map_to_list (sessions m)).*1).

End Model.

Arguments StreamSession {Libs}.
Arguments StreamManager {Libs}.

(** A binary and a text message, as the ASGI server delivers them. *)
Definition binary_message (data : bytes) : Message :=
  {| msg_type := "websocket.receive"; msg_bytes := Some data; msg_text := None |}.

Definition text_message (text : string) : Message :=
  {| msg_type := "websocket.receive"; msg_bytes := None; msg_text := Some text |}.

Definition disconnect_message : Message :=
  {| msg_type := "websocket.disconnect"; msg_bytes := None; msg_text := None |}.

(** ** The endpoint, and the states a server goes through *)

Section Endpoint.
Context `{Libs : Libraries}.

(** [stream_endpoint] of [api/routes/websocket.py]. [session_id] is the
    query parameter ([None] when it is absent), [uuid4] the string that
    [str(uuid.uuid4())] returns in this call. *)
Definition stream_endpoint (m : StreamManager) (ws : WebSocket)
    (session_id : option string) (uuid4 : string)
    (incoming : list (Message * timestamp))
  : StreamManager * list sent * handler_state :=
  let session_id :=
    match session_id with
    | None => uuid4
    | Some sid => if decide (sid = "") then uuid4 else sid
    end in
  websocket_stream_handler m ws session_id incoming.

(** No two identifiers of the registry refer to one session object. *)
Definition distinct (m : StreamManager) : Prop :=
  ∀ sid1 sid2 l,
    sessions m !! sid1 = Some l → sessions m !! sid2 = Some l → sid1 = sid2.

(** [m'] differs from [m] at most in the session object behind [o] and in
    the globals of [core.face_swap]: same registry, same store otherwise. *)
Definition modifies_only (o : option loc) (m m' : StreamManager) : Prop :=
  sessions m' = sessions m
  ∧ length (heap m') = length (heap m)
  ∧ ∀ l, o ≠ Some l → heap m' !! l = heap m !! l.

(** The clock readings of the frames are each later than the one before,
    the first one later than [last]. *)
Fixpoint clock_advances (last : timestamp) (frames : list (bytes * timestamp))
  : Prop :=
  match frames with
  | [] => True
  | (_, now) :: rest => (last < now)%Qc ∧ clock_advances now rest
  end.

(** What the event loop can run next on the manager: a method of
    [StreamManager] called by some connection, either half of a
    [process_frame] (for any session object and any decoded frame), or one
    turn of some handler's loop. *)
Inductive step : StreamManager → StreamManager → Prop :=
  | step_connect m ws sid : step m (connect m ws sid).1
  | step_disconnect m sid : step m (disconnect m sid)
  | step_set_target_face m sid data : step m (set_target_face m sid data).1
  | step_begin m sid data : step m (process_frame_begin m sid data).1
  | step_resume m l frame now : step m (process_frame_resume m l frame now).1
  | step_message m sid message now : step m (on_message m sid message now).1.1.

(** The states of a server since its start. *)
Definition reachable (m : StreamManager) : Prop := rtc step stream_manager m.

End Endpoint.

(** ** Batch face swapping: [core/face_swap.py] *)

Module FaceSwap.
Section Batch.
Context `{Libs : Libraries}.

(** The class [FaceSwapper]: the face to swap to. ([models_path] and
    [_target_face_path] are only kept for the log.) *)
Record FaceSwapper := {
  target_face : option Face;
}.

(** [FaceSwapper(models_path)], which is also [create_face_swapper]:
    [_init_models], whose exception leaves the constructor. *)
Definition create_face_swapper (g : FaceSwapGlobals)
  : FaceSwapGlobals * outcome FaceSwapper :=
  let '(g', raised) := _init_models g in
  (g', if raised then Raise else Ret {| target_face := None |}).

(** [FaceSwapper.load_target_face]. [file] is what the path holds: [None]
    when it does not exist, [Some None] when [cv2.imread] cannot read it.
    The module globals are read when the call runs; a method call on a
    global that is [None] raises. *)
Definition load_target_face (self : FaceSwapper) (g : FaceSwapGlobals)
    (file : option (option ndarray)) : FaceSwapper * outcome bool :=
  match file with
  | None => (self, Raise)
  | Some None => (self, Raise)
  | Some (Some img) =>
      if negb (_face_analysis g) then (self, Raise)
      else
        match face_analysis_get img with
        | Raise => (self, Raise)
        | Ret [] => (self, Ret false)
        | Ret (f :: _) => ({| target_face := Some f |}, Ret true)
        end
  end.

(** [FaceSwapper.swap_frame] *)
Definition swap_frame (self : FaceSwapper) (g : FaceSwapGlobals)
    (frame : ndarray) : outcome (ndarray * bool) :=
  match target_face self with
  | None => Raise
  | Some target =>
      if negb (_face_analysis g) then Raise
      else
        match face_analysis_get frame with
        | Raise => Raise
        | Ret [] => Ret (frame, false)
        | Ret (f :: _) =>
            if negb (_swapper g) then Raise
            else
              match swapper_get frame f target with
              | Raise => Raise
              | Ret result => Ret (result, true)
              end
        end
  end.

(** The [while True] loop of [swap_video] over the frames that [cap.read()]
    still delivers: the frames given to [writer.write], the calls of
    [progress_callback] (when there is one), and the two counters at the
    end of the loop, or the exception of a [swap_frame]. *)
Fixpoint swap_video_loop (self : FaceSwapper) (g : FaceSwapGlobals)
    (progress_callback : bool) (total_frames : Z) (frames : list ndarray)
    (frame_count swapped_count : nat)
  : list ndarray * list (nat * Z) * outcome (nat * nat) :=
  match frames with
  | [] => ([], [], Ret (frame_count, swapped_count))
  | frame :: rest =>
      match swap_frame self g frame with
      | Raise => ([], [], Raise)
      | Ret (result, success) =>
          let swapped_count := if success then swapped_count + 1 else swapped_count in
          let frame_count := frame_count + 1 in
          let calls :=
            if progress_callback && (frame_count mod 10 =? 0)%nat
            then [(frame_count, total_frames)] else [] in
          let '(written, progress, counts) :=
            swap_video_loop self g progress_callback total_frames rest
              frame_count swapped_count in
          (result :: written, (calls ++ progress)%list, counts)
      end
  end.

(** [FaceSwapper.swap_video]. [capture] is the video behind [input_path]:
    [None] when [cap.isOpened()] is false, else its frames; [total_frames]
    is what the container announces. The result tells what was written,
    which progress calls were made, and whether the function returned. The
    log line after the loop divides by [frame_count]. *)
Definition swap_video (self : FaceSwapper) (g : FaceSwapGlobals)
    (capture : option (list ndarray)) (total_frames : Z)
    (progress_callback : bool)
  : list ndarray * list (nat * Z) * outcome unit :=
  match target_face self with
  | None => ([], [], Raise)
  | Some _ =>
      match capture with
      | None => ([], [], Raise)
      | Some frames =>
          match swap_video_loop self g progress_callback total_frames frames 0 0 with
          | (written, progress, Raise) => (written, progress, Raise)
          | (written, progress, Ret (frame_count, _)) =>
              if (frame_count =? 0)%nat then (written, progress, Raise)
              else (written, progress, Ret tt)
          end
      end
  end.

End Batch.

Arguments FaceSwapper {Libs}.

End FaceSwap.

(** ** A small installation to run the model on

    Stand-ins for the libraries, used to evaluate the functions above on
    concrete messages. Images are raw pixel buffers behind a two-byte or
    four-byte signature (the decoder reads PNG and JPEG, the encoder writes
    JPEG, as the calls in the source do); a face is a non-zero pixel; the
    JSON reader covers literals, integers, strings without escapes, arrays
    and objects. *)
Module Demo.

Definition dquote : ascii := ascii_of_nat 34.

Definition is_ws (c : ascii) : bool :=
  let n := nat_of_ascii c in
  ((n =? 32) || (n =? 9) || (n =? 10) || (n =? 13))%nat.

Definition digit_of (c : ascii) : option Z :=
  let n := nat_of_ascii c in
  if ((48 <=? n) && (n <=? 57))%nat then Some (Z.of_nat (n - 48)) else None.

Fixpoint skip_ws (s : list ascii) : list ascii :=
  match s with
  | c :: r => if is_ws c then skip_ws r else s
  | [] => []
  end.

Fixpoint strip_prefix (p s : list ascii) : option (list ascii) :=
  match p, s with
  | [], _ => Some s
  | a :: p', b :: s' => if Ascii.eqb a b then strip_prefix p' s' else None
  | _ :: _, [] => None
  end.

(** The characters of a string up to its closing quote. *)
Fixpoint scan_string (s : list ascii) : option (string * list ascii) :=
  match s with
  | [] => None
  | c :: r =>
      if Ascii.eqb c dquote then Some (EmptyString, r)
      else if ((nat_of_ascii c =? 92) || (nat_of_ascii c <? 32))%nat then None
      else '(str, r') ← scan_string r; Some (String c str, r')
  end.

Fixpoint scan_digits (acc : Z) (s : list ascii) : Z * list ascii :=
  match s with
  | c :: r =>
      match digit_of c with
      | Some d => scan_digits (acc * 10 + d) r
      | None => (acc, s)
      end
  | [] => (acc, [])
  end.

(** An integer literal: no leading zero, no fraction, no exponent. *)
Definition scan_int (s : list ascii) : option (Z * list ascii) :=
  let '(neg, s1) :=
    match s with
    | c :: r => if (nat_of_ascii c =? 45)%nat then (true, r) else (false, s)
    | [] => (false, s)
    end in
  match s1 with
  | c :: r =>
      match digit_of c with
      | None => None
      | Some d =>
          let '(n, rest) :=
            if (d =? 0)%Z then (0%Z, r) else scan_digits d r in
          match rest with
          | c' :: _ =>
              if is_Some_dec (digit_of c') then None
              else if ((nat_of_ascii c' =? 46) || (nat_of_ascii c' =? 101)
                      || (nat_of_ascii c' =? 69))%nat then None
              else Some (if neg then (- n)%Z else n, rest)
          | [] => Some (if neg then (- n)%Z else n, rest)
          end
      end
  | [] => None
  end.

(** [d[k] = v] on the items of a dict: a later duplicate key overwrites. *)
Fixpoint dict_set (items : list (string * json)) (k : string) (v : json)
  : list (string * json) :=
  match items with
  | [] => [(k, v)]
  | (k', v') :: rest =>
      if decide (k' = k) then (k, v) :: rest else (k', v') :: dict_set rest k v
  end.

Fixpoint parse_value (fuel : nat) (s : list ascii) : option (json * list ascii) :=
  match fuel with
  | 0 => None
  | S n =>
      match skip_ws s with
      | [] => None
      | c :: r =>
          if Ascii.eqb c dquote then
            '(str, r') ← scan_string r; Some (JStr str, r')
          else if Ascii.eqb c "[" then
            match skip_ws r with
            | c' :: r' =>
                if Ascii.eqb c' "]" then Some (JArr [], r')
                else '(l, r'') ← parse_elements n r; Some (JArr l, r'')
            | [] => None
            end
          else if Ascii.eqb c "{" then
            match skip_ws r with
            | c' :: r' =>
                if Ascii.eqb c' "}" then Some (JObj [], r')
                else '(items, r'') ← parse_members n [] r; Some (JObj items, r'')
            | [] => None
            end
          else
            match strip_prefix (list_ascii_of_string "null") (c :: r),
                  strip_prefix (list_ascii_of_string "true") (c :: r),
                  strip_prefix (list_ascii_of_string "false") (c :: r) with
            | Some r', _, _ => Some (JNull, r')
            | _, Some r', _ => Some (JBool true, r')
            | _, _, Some r' => Some (JBool false, r')
            | None, None, None => '(z, r') ← scan_int (c :: r); Some (JInt z, r')
            end
      end
  end
with parse_elements (fuel : nat) (s : list ascii) : option (list json * list ascii) :=
  match fuel with
  | 0 => None
  | S n =>
      '(v, r) ← parse_value n s;
      match skip_ws r with
      | c :: r' =>
          if Ascii.eqb c "]" then Some ([v], r')
          else if Ascii.eqb c "," then
            '(vs, r'') ← parse_elements n r'; Some (v :: vs, r'')
          else None
      | [] => None
      end
  end
with parse_members (fuel : nat) (acc : list (string * json)) (s : list ascii)
  : option (list (string * json) * list ascii) :=
  match fuel with
  | 0 => None
  | S n =>
      match skip_ws s with
      | c :: r =>
          if Ascii.eqb c dquote then
            '(k, r1) ← scan_string r;
            match skip_ws r1 with
            | c1 :: r2 =>
                if Ascii.eqb c1 ":" then
                  '(v, r3) ← parse_value n r2;
                  let acc' := dict_set acc k v in
                  match skip_ws r3 with
                  | c3 :: r4 =>
                      if Ascii.eqb c3 "}" then Some (acc', r4)
                      else if Ascii.eqb c3 "," then parse_members n acc' r4
                      else None
                  | [] => None
                  end
                else None
            | [] => None
            end
          else None
      | [] => None
      end
  end.

(** A whole document: one value and nothing but white space after it. *)
Definition loads (text : string) : option json :=
  let s := list_ascii_of_string text in
  '(v, r) ← parse_value (S (length s)) s;
  match skip_ws r with
  | [] => Some v
  | _ :: _ => None
  end.

Definition png_signature : bytes := [x89; x50; x4e; x47].
Definition jpeg_signature : bytes := [xff; xd8].

Definition decode (data : bytes) : outcome (option bytes) :=
  match data with
  | [] => Raise
  | _ =>
      if decide (take 4 data = png_signature) then Ret (Some (drop 4 data))
      else if decide (take 2 data = jpeg_signature) then Ret (Some (drop 2 data))
      else Ret None
  end.

Definition encode (img : bytes) : outcome bytes := Ret (jpeg_signature ++ img)%list.

Definition detect (img : bytes) : outcome (list Byte.byte) :=
  Ret (filter (λ b, b ≠ x00) img).

Definition swap (frame : bytes) (face target : Byte.byte) : outcome bytes :=
  Ret ((λ b, if decide (b = face) then target else b) <$> frame).

#[export] Instance libraries : Libraries := {|
  ndarray := bytes;
  Face := Byte.byte;
  imdecode := decode;
  imencode := encode;
  face_analysis_get := detect;
  swapper_get := swap;
  face_swap_importable := true;
  init_models_result := InitOk;
  json_loads := loads;
|}.

(** The same installation without the swapper model file. *)
Definition libraries_without_swapper : Libraries := {|
  ndarray := bytes;
  Face := Byte.byte;
  imdecode := decode;
  imencode := encode;
  face_analysis_get := detect;
  swapper_get := swap;
  face_swap_importable := true;
  init_models_result := InitNoSwapper;
  json_loads := loads;
|}.

(** [s] between double quotes. *)
Definition quoted (s : string) : string :=
  String dquote (s ++ String dquote EmptyString).

(** The text [{"command": "<cmd>"}]. *)
Definition command_text (cmd : string) : string :=
  "{" ++ quoted "command" ++ ": " ++ quoted cmd ++ "}".

End Demo.


(** Concrete inputs for the installation above. *)
Module Inputs.
Import Demo.

(** A clock reading, in seconds. *)
Definition at_second (n : Z) : timestamp := Q2Qc (inject_Z n).

Definition jpg (pixels : bytes) : bytes := (jpeg_signature ++ pixels)%list.
Definition png (pixels : bytes) : bytes := (png_signature ++ pixels)%list.

(** Two reference images with one face each, and one without a face. *)
Definition face_a : bytes := jpg [x00; x01].
Definition face_b : bytes := jpg [x02; x00].
Definition faceless : bytes := jpg [x00; x00].

(** A video frame showing one face. *)
Definition frame1 : bytes := jpg [x00; x05; x00].

(** A session ["s1"] on connection 7 of a server that has just started. *)
Definition fresh : StreamManager := fst (connect stream_manager 7 "s1").

(** The same session after one reference image and two frames. *)
Definition warmed_up : StreamManager :=
  fst (fst (handler_loop fresh "s1"
    [(binary_message (FACE ++ face_a)%list, at_second 1);
     (binary_message frame1, at_second 2);
     (binary_message frame1, at_second 3)])).

(** The session object of ["s1"] in that state. *)
Definition warmed_up_session : StreamSession :=
  default (new_session 0) (heap warmed_up !! 0).

(** The session ["s1"] after one frame, stamped at second 2, and no
    reference image. *)
Definition streaming : StreamManager :=
  fst (process_frame fresh "s1" frame1 (at_second 2)).

Definition streaming_session : StreamSession :=
  default (new_session 0) (heap streaming !! 0).

(** A second session, ["s2"] on connection 8, beside ["s1"]. *)
Definition two_sessions : StreamManager := fst (connect fresh 8 "s2").

(** [warmed_up] with a second session, ["s2"] on connection 8, that has
    the reference image of [face_b] and has not processed a frame. *)
Definition second_reference : StreamManager :=
  fst (set_target_face (fst (connect warmed_up 8 "s2")) "s2" face_b).

Definition second_reference_session : StreamSession :=
  default (new_session 0) (heap second_reference !! 1).

(** The globals of [core.face_swap] before and after a successful
    initialisation, and after one that failed on the swapper model. *)
Definition unbound : FaceSwapGlobals :=
  {| _face_analysis := false; _swapper := false |}.
Definition bound : FaceSwapGlobals :=
  {| _face_analysis := true; _swapper := true |}.
Definition half_bound : FaceSwapGlobals :=
  {| _face_analysis := true; _swapper := false |}.

(** A session object with the reference image of [face_a]. *)
Definition with_reference : StreamSession :=
  set_target_face_field ([x00; x01] : ndarray) (new_session 7).

(** [fresh] after the reference image of [face_a] was accepted. *)
Definition referenced : StreamManager :=
  fst (set_target_face fresh "s1" face_a).

(** A batch swapper with the face [x01] loaded. *)
Definition loaded : FaceSwap.FaceSwapper := {| FaceSwap.target_face := Some x01 |}.

(** A video of ten frames, the third of which shows a face. *)
Definition ten_frames : list ndarray :=
  [[x00]; [x00]; [x05]; [x00]; [x00]; [x00]; [x00]; [x00]; [x00]; [x00]].

End Inputs.

(** * Properties *)

Section Properties.
Context `{Libs : Libraries}.
Implicit Types (m : StreamManager) (s : StreamSession) (sid : string) (l : loc).

(** ** Reading and writing session objects *)

Lemma get_session_Some m sid l s :
  get_session m sid = Some (l, s) ↔ sessions m !! sid = Some l ∧ heap m !! l = Some s.
Proof.
  unfold get_session.
  destruct (sessions m !! sid) as [l'|]; simpl; [|intuition congruence].
  destruct (heap m !! l') as [s'|] eqn:E; simpl; [|intuition congruence].
  split; [intros [= <- <-]; done|intros [[= <-] Hs]; congruence].
Qed.

Lemma get_session_unknown m sid : sessions m !! sid = None → get_session m sid = None.
Proof. unfold get_session. by intros ->. Qed.

Lemma get_session_update m sid l s f :
  get_session m sid = Some (l, s) → get_session (update m l f) sid = Some (l, f s).
Proof.
  rewrite !get_session_Some. intros [Hl Hs]. split; [done|].
  simpl. by rewrite list_lookup_alter_eq, Hs.
Qed.

Lemma get_session_store m g sid l s s' :
  get_session m sid = Some (l, s) → get_session (store m g l s') sid = Some (l, s').
Proof.
  rewrite !get_session_Some. intros [Hl Hs]. split; [done|].
  simpl. apply list_lookup_insert_eq. by eapply lookup_lt_Some.
Qed.

Lemma update_update m l f g :
  update (update m l f) l g = update m l (g ∘ f).
Proof.
  unfold update; simpl. f_equal.
  apply list_eq; intros i. destruct (decide (i = l)) as [->|].
  - rewrite !list_lookup_alter_eq. by destruct (heap m !! l).
  - by rewrite !list_lookup_alter_ne.
Qed.

Lemma update_id m l s f :
  heap m !! l = Some s → f s = s → update m l f = m.
Proof.
  intros Hs Hf. destruct m as [ss h g]; unfold update; simpl in *. f_equal.
  apply list_eq; intros i. destruct (decide (i = l)) as [->|].
  - by rewrite list_lookup_alter_eq, Hs; simpl; rewrite Hf.
  - by rewrite list_lookup_alter_ne.
Qed.

Lemma get_session_connect m ws sid :
  get_session (connect m ws sid).1 sid = Some (length (heap m), new_session ws).
Proof.
  apply get_session_Some; simpl. split; [apply lookup_insert_eq|].
  by rewrite list_lookup_middle.
Qed.

(** The identifiers of a listing are the keys of the registry. *)
Lemma listing_ids m sid :
  sid ∈ (list_stream_sessions m).2.*1 ↔ is_Some (sessions m !! sid).
Proof.
  unfold list_stream_sessions; simpl.
  rewrite <-list_fmap_compose, list_elem_of_fmap. split.
  - intros (k & -> & Hk). simpl.
    apply list_elem_of_fmap in Hk as ([k' l] & -> & Hk).
    apply elem_of_map_to_list in Hk. by exists l.
  - intros [l Hl]. exists sid. split; [done|].
    apply list_elem_of_fmap. exists (sid, l). split; [done|].
    by apply elem_of_map_to_list.
Qed.

(** ** The registry *)

(** C9. Removing a session identifier is idempotent: a second removal leaves
    the registry as the first one left it, removing an identifier that is
    absent changes nothing (and the function has no way to fail), and after
    the first removal neither the registry nor a listing of it contains the
    identifier. *)
Theorem disconnect_idempotent m sid :
  disconnect (disconnect m sid) sid = disconnect m sid
  ∧ sessions (disconnect m sid) !! sid = None
  ∧ (sid ∉ (list_stream_sessions (disconnect m sid)).2.*1)
  ∧ (match sessions m !! sid with
     | None => disconnect m sid = m
     | Some _ => sessions (disconnect m sid) = delete sid (sessions m)
     end).
Proof.
  assert (Hgone : sessions (disconnect m sid) !! sid = None).
  { unfold disconnect. destruct (sessions m !! sid) eqn:E; simpl; [|done].
    apply lookup_delete_eq. }
  repeat split.
  - unfold disconnect at 1. by rewrite Hgone.
  - done.
  - rewrite listing_ids, Hgone. by intros [? ?].
  - unfold disconnect. by destruct (sessions m !! sid).
Qed.

(** Removal leaves every other identifier alone. *)
Lemma disconnect_other m sid sid' :
  sid' ≠ sid → sessions (disconnect m sid) !! sid' = sessions m !! sid'.
Proof.
  intros Hne. unfold disconnect. destruct (sessions m !! sid); simpl; [|done].
  by apply lookup_delete_ne.
Qed.

(** C6, as the code has it. Creating a session under an identifier that is
    already registered succeeds: the identifier is bound to a new session
    object (on the new connection, no reference face, idle, zero counters),
    which is not the object bound before; that object stays in the store
    unchanged, and no other identifier is rebound. *)
Theorem connect_replaces_existing m ws sid l0 s0 :
  wf m →
  get_session m sid = Some (l0, s0) →
  ∃ m' l,
    connect m ws sid = (m', l)
    ∧ l ≠ l0
    ∧ get_session m' sid = Some (l, new_session ws)
    ∧ heap m' !! l0 = Some s0
    ∧ size (sessions m') = size (sessions m)
    ∧ ∀ sid', sid' ≠ sid → sessions m' !! sid' = sessions m !! sid'.
Proof.
  intros Hwf [Hl Hs]%get_session_Some.
  exists (connect m ws sid).1, (length (heap m)). repeat split.
  - pose proof (Hwf _ _ Hl) as Hlt. simpl in *. lia.
  - apply get_session_connect.
  - simpl. rewrite lookup_app_l; [done|]. by eapply lookup_lt_Some.
  - simpl. apply map_size_insert_Some. eauto.
  - intros sid' Hne. simpl. by apply lookup_insert_ne.
Qed.

(** ** Setting the reference face *)

(** Setting a reference face never touches the cached embedding, the busy
    flag or the counters of the session. *)
Lemma set_target_face_keeps m sid data l s :
  get_session m sid = Some (l, s) →
  ∃ s', get_session (set_target_face m sid data).1 sid = Some (l, s')
    ∧ _target_embedding s' = _target_embedding s
    ∧ is_processing s' = is_processing s
    ∧ frames_processed s' = frames_processed s
    ∧ last_frame_time s' = last_frame_time s
    ∧ fps s' = fps s.
Proof.
  intros Hg. pose proof Hg as [Hl Hs]%get_session_Some.
  unfold set_target_face. rewrite Hl.
  destruct (imdecode data) as [[img|]|]; simpl; eauto 10.
  eexists. split; [by apply get_session_update|]. done.
Qed.

(** C3, as the code has it. For a registered session, bytes that fail image
    decoding (the decoder returns nothing, or raises) make the operation
    return false and leave the whole state unchanged; bytes that decode to
    an image are accepted without any face detection: the operation returns
    true and the stored reference image is replaced by the decoded one. *)
Theorem set_target_face_checks_decoding_only m sid l data :
  sessions m !! sid = Some l →
  match imdecode data with
  | Ret (Some img) =>
      set_target_face m sid data = (update m l (set_target_face_field img), true)
  | Ret None | Raise => set_target_face m sid data = (m, false)
  end.
Proof.
  intros Hl. unfold set_target_face. rewrite Hl.
  by destruct (imdecode data) as [[img|]|].
Qed.

(** ** Unknown sessions *)

(** C10. With an identifier that is not in the registry, [set_target_face]
    returns false and [process_frame] returns [None], both leaving the
    state as it was, and [get_stats] returns the empty dict, so that the
    reply to a [stats] command consists of the ["type"] field alone. *)
Theorem unknown_session_is_noop m sid data now :
  sessions m !! sid = None →
  set_target_face m sid data = (m, false)
  ∧ process_frame m sid data now = (m, None)
  ∧ get_stats m sid = []
  ∧ ∀ text items,
      json_loads text = Some (JObj items) →
      dict_get items "command" = Some (JStr "stats") →
      on_message m sid (text_message text) now
      = (m, [send_json (JObj [("type", JStr "stats")])], Next).
Proof.
  intros Hnone. pose proof (get_session_unknown _ _ Hnone) as Hg.
  assert (Hstats : get_stats m sid = []) by (unfold get_stats; by rewrite Hg).
  repeat split.
  - unfold set_target_face. by rewrite Hnone.
  - unfold process_frame, process_frame_begin. by rewrite Hg.
  - done.
  - intros text items Hparse Hcmd. unfold on_message; simpl.
    by rewrite Hparse, Hcmd, Hstats.
Qed.

(** ** Processing a frame *)

(** The face swap step only ever adds the cached embedding to the session,
    and is the identity when no reference face is set. *)
Lemma _process_frame_internal_spec (g : FaceSwapGlobals) s (frame : ndarray) :
  ∃ g' s' out,
    _process_frame_internal g s frame = (g', s', out)
    ∧ (s' = s ∨ ∃ e, s' = set_target_embedding e s)
    ∧ (target_face s = None → g' = g ∧ s' = s ∧ out = frame).
Proof.
  unfold _process_frame_internal.
  repeat case_match; simplify_eq; eexists _, _, _;
    (split; [reflexivity|]); split; eauto; try done.
Qed.

(** What the second half of [process_frame] does to the session it holds. *)
Lemma process_frame_resume_spec m l s (frame : ndarray) now :
  heap m !! l = Some s →
  ∃ g s' r,
    process_frame_resume m l frame now = (store m g l s', r)
    ∧ is_processing s' = false
    ∧ target_face s' = target_face s
    ∧ (frames_processed s' = frames_processed s
       ∨ frames_processed s' = frames_processed s + 1)
    ∧ (∀ out, r = Some out →
         frames_processed s' = frames_processed s + 1
         ∧ last_frame_time s' = now
         ∧ ∃ img, imencode img = Ret out)
    ∧ (target_face s = None → ∀ out, r = Some out → imencode frame = Ret out).
Proof.
  intros Hs. unfold process_frame_resume. rewrite Hs.
  destruct (_process_frame_internal_spec (face_swap m) s frame)
    as (g & s1 & out & -> & Hshape & Hnone).
  assert (Hsame : target_face s1 = target_face s
                  ∧ frames_processed s1 = frames_processed s).
  { by destruct Hshape as [->|[e ->]]. }
  destruct Hsame as [Htf Hfp].
  destruct (imencode out) as [buffer|] eqn:Henc.
  - repeat case_decide; eexists _, _, _; (split; [reflexivity|]); simpl;
      rewrite ?Htf, ?Hfp; (split; [done|]); (split; [done|]); (split; [eauto|]);
      (split; [intros ? ?; simplify_eq; eauto 6|]);
      intros Hno ? ?; simplify_eq; by destruct (Hnone Hno) as (_ & _ & <-).
  - eexists _, _, _; (split; [reflexivity|]); simpl;
      rewrite ?Htf, ?Hfp; repeat split; eauto; done.
Qed.

(** A frame that does not decode leaves an idle session exactly as it was. *)
Lemma process_frame_undecodable m sid l s data now :
  get_session m sid = Some (l, s) →
  is_processing s = false →
  imdecode data = Ret None ∨ imdecode data = Raise →
  process_frame m sid data now = (m, None).
Proof.
  intros Hg Hidle Hdec. pose proof Hg as [Hl Hs]%get_session_Some.
  unfold process_frame, process_frame_begin. rewrite Hg, Hidle.
  assert (update (update m l (set_is_processing true)) l (set_is_processing false) = m)
    as Hback.
  { rewrite update_update. apply (update_id _ _ s); [done|].
    destruct s; simpl in *; by subst. }
  destruct Hdec as [-> | ->]; by rewrite Hback.
Qed.

(** A frame processed on an idle session: the session stays registered and
    idle, the counter moves by at most one, and a result means that the
    counter moved and that the result is what the encoder returned. *)
Lemma process_frame_idle m sid l s data now :
  get_session m sid = Some (l, s) →
  is_processing s = false →
  ∃ s',
    get_session (process_frame m sid data now).1 sid = Some (l, s')
    ∧ is_processing s' = false
    ∧ target_face s' = target_face s
    ∧ (frames_processed s' = frames_processed s
       ∨ frames_processed s' = frames_processed s + 1)
    ∧ (∀ out, (process_frame m sid data now).2 = Some out →
         frames_processed s' = frames_processed s + 1
         ∧ last_frame_time s' = now
         ∧ ∃ img, imencode img = Ret out)
    ∧ (target_face s = None →
       ∀ out, (process_frame m sid data now).2 = Some out →
         ∃ frame, imdecode data = Ret (Some frame) ∧ imencode frame = Ret out).
Proof.
  intros Hg Hidle.
  destruct (imdecode data) as [[frame|]|] eqn:Hdec.
  2,3: rewrite (process_frame_undecodable m sid l s) by eauto;
       exists s; simpl; repeat split; eauto; done.
  unfold process_frame, process_frame_begin. rewrite Hg, Hidle, Hdec.
  pose proof (get_session_update _ _ _ _ (set_is_processing true) Hg) as Hg1.
  pose proof Hg1 as [_ Hs1]%get_session_Some.
  destruct (process_frame_resume_spec _ _ _ frame now Hs1)
    as (g & s' & r & -> & Hflag & Htf & Hfp & Hres & Hpass).
  exists s'. simpl in *.
  split; [by eapply get_session_store|].
  do 4 (split; [done|]).
  intros Hno out ->. exists frame. split; [done|]. by apply Hpass.
Qed.

(** A frame sent to a busy session is dropped and changes nothing. *)
Lemma process_frame_busy m sid l s data now :
  get_session m sid = Some (l, s) →
  is_processing s = true →
  process_frame m sid data now = (m, None).
Proof.
  intros Hg Hbusy. unfold process_frame, process_frame_begin.
  by rewrite Hg, Hbusy.
Qed.

(** The result of [process_frame], when there is one, is what the encoder
    returned for some image. *)
Lemma process_frame_result m sid data now out :
  (process_frame m sid data now).2 = Some out → ∃ img, imencode img = Ret out.
Proof.
  destruct (get_session m sid) as [[l s]|] eqn:Hg.
  - destruct (is_processing s) eqn:Hbusy.
    + by rewrite (process_frame_busy m sid l s).
    + destruct (process_frame_idle m sid l s data now Hg Hbusy)
        as (s' & _ & _ & _ & _ & Hres & _).
      intros Hout. by destruct (Hres _ Hout) as (_ & _ & ?).
  - unfold process_frame, process_frame_begin. by rewrite Hg.
Qed.

(** Without a reference face, frames processed one at a time are decoded
    and encoded again, nothing more. *)
Lemma process_frames_without_reference sid frames :
  ∀ m l s,
    get_session m sid = Some (l, s) →
    is_processing s = false →
    target_face s = None →
    Forall2
      (λ input result, ∀ out, result = Some out →
         ∃ frame, imdecode input.1 = Ret (Some frame) ∧ imencode frame = Ret out)
      frames (process_frames m sid frames).2.
Proof.
  induction frames as [|[data now] frames IH]; intros m l s Hg Hidle Hno; simpl.
  { constructor. }
  destruct (process_frame_idle m sid l s data now Hg Hidle)
    as (s' & Hg' & Hidle' & Htf & _ & _ & Hpass).
  destruct (process_frame m sid data now) as [m1 r]; simpl in *.
  specialize (IH m1 l s' Hg' Hidle').
  destruct (process_frames m1 sid frames) as [m2 rs]; simpl in *.
  constructor; [by apply Hpass|]. apply IH. congruence.
Qed.

(** C2, as the code has it. On a session created by [connect] and never
    given a reference face, for every sequence of frames processed one at
    a time, each result that is not [None] is the JPEG encoding of the
    image its input frame decodes to: the pixels pass through unmodified,
    the bytes are those the encoder produces, not the input bytes. *)
Theorem passthrough_reencodes_decoded_frame m ws sid frames :
  Forall2
    (λ input result, ∀ out, result = Some out →
       ∃ frame, imdecode input.1 = Ret (Some frame) ∧ imencode frame = Ret out)
    frames (process_frames (connect m ws sid).1 sid frames).2.
Proof.
  eapply process_frames_without_reference;
    [apply get_session_connect|done|done].
Qed.



(** Whatever a [process_frame] invocation does, the counter of the session
    never goes down. *)
Lemma frames_processed_monotone m sid l s data now :
  get_session m sid = Some (l, s) →
  ∃ s', get_session (process_frame m sid data now).1 sid = Some (l, s')
    ∧ (frames_processed s ≤ frames_processed s')%nat.
Proof.
  intros Hg. destruct (is_processing s) eqn:Hflag.
  - rewrite (process_frame_busy m sid l s) by done. eauto.
  - destruct (process_frame_idle m sid l s data now Hg Hflag)
      as (s' & Hg' & _ & _ & Hfp & _). exists s'. split; [done|lia].
Qed.

(** C7, where the code departs from it. On an idle session without a
    reference face whose last frame was stamped [t > 0], a decodable frame
    whose statistics update reads the clock at [t] again makes the division
    in the frames-per-second update fail: the invocation returns [None],
    and yet [frames_processed] has moved by one. *)
Theorem counter_moves_although_update_fails m sid l s data frame buffer :
  get_session m sid = Some (l, s) →
  is_processing s = false →
  target_face s = None →
  imdecode data = Ret (Some frame) →
  imencode frame = Ret buffer →
  (0 < last_frame_time s)%Qc →
  ∃ s',
    (process_frame m sid data (last_frame_time s)).2 = None
    ∧ get_session (process_frame m sid data (last_frame_time s)).1 sid = Some (l, s')
    ∧ frames_processed s' = frames_processed s + 1.
Proof.
  intros Hg Hidle Hno Hdec Henc Hpos.
  unfold process_frame, process_frame_begin. rewrite Hg, Hidle, Hdec.
  pose proof (get_session_update _ _ _ _ (set_is_processing true) Hg) as Hg1.
  pose proof Hg1 as [_ Hs1]%get_session_Some.
  unfold process_frame_resume. rewrite Hs1.
  unfold _process_frame_internal. simpl. rewrite Hno, Henc.
  rewrite decide_True by done.
  rewrite decide_True by (unfold Qcminus; apply Qcplus_opp_r).
  eexists. simpl. split; [done|]. split; [by eapply get_session_store|]. done.
Qed.

(** C1, where the code departs from it. Once a session has cached the
    embedding [e] of an earlier reference image, a successful
    [set_target_face] with new image bytes stores the new image and keeps
    [e]; the face swap step of every later frame then pastes [e], and never
    computes an embedding from the new image. *)
Theorem new_reference_keeps_cached_embedding
    m sid l s e data img (frame : ndarray) f fs result :
  get_session m sid = Some (l, s) →
  _target_embedding s = Some e →
  imdecode data = Ret (Some img) →
  face_swap_importable = true →
  _face_analysis (face_swap m) = true →
  _swapper (face_swap m) = true →
  face_analysis_get frame = Ret (f :: fs) →
  swapper_get frame f e = Ret result →
  ∃ s',
    (set_target_face m sid data).2 = true
    ∧ get_session (set_target_face m sid data).1 sid = Some (l, s')
    ∧ target_face s' = Some img
    ∧ _target_embedding s' = Some e
    ∧ _process_frame_internal (face_swap (set_target_face m sid data).1) s' frame
      = (face_swap m, s', result).
Proof.
  intros Hg He Hdec Himp Han Hsw Hfaces Hswap.
  pose proof Hg as [Hl Hs]%get_session_Some.
  unfold set_target_face. rewrite Hl, Hdec. simpl.
  exists (set_target_face_field img s). split; [done|].
  split; [by apply get_session_update|]. do 2 (split; [done|]).
  unfold _process_frame_internal. simpl.
  by rewrite Himp, Han, Hsw, He, Hfaces, Hswap.
Qed.

(** ** Messages *)

(** A payload starts with the marker when its first four bytes are it. *)
Lemma face_marker_prefix (data : bytes) :
  take 4 data = FACE ↔ ∃ rest, data = (FACE ++ rest)%list.
Proof.
  split.
  - intros Hmark. exists (drop 4 data). by rewrite <-Hmark, take_drop.
  - by intros [rest ->].
Qed.

(** C8. Given an encoder that never returns an empty buffer (a JPEG stream
    has at least its markers): a binary message that starts with [FACE]
    invokes [set_target_face] with exactly the bytes after the marker and
    is answered by the one JSON object [{"type": "face_set", "success": b}]
    with [b] the result of that call; any other binary message is passed
    whole to [process_frame] and is answered by one binary message with the
    result when there is one, and by nothing when there is none. *)
Theorem binary_message_dispatch m sid data now :
  (∀ img, imencode img ≠ Ret []) →
  (∀ rest, data = (FACE ++ rest)%list →
     on_message m sid (binary_message data) now
     = ((set_target_face m sid rest).1,
        [send_json (JObj [("type", JStr "face_set");
                          ("success", JBool (set_target_face m sid rest).2)])],
        Next))
  ∧ ((¬ ∃ rest, data = (FACE ++ rest)%list) →
     on_message m sid (binary_message data) now
     = ((process_frame m sid data now).1,
        match (process_frame m sid data now).2 with
        | Some out => [send_bytes out]
        | None => []
        end,
        Next)).
Proof.
  intros Hnonempty. split.
  - intros rest ->. unfold on_message; simpl.
    rewrite drop_0. by destruct (set_target_face m sid rest).
  - intros Hnot. unfold on_message; simpl.
    rewrite decide_False by (by rewrite face_marker_prefix).
    pose proof (process_frame_result m sid data now) as Hres.
    destruct (process_frame m sid data now) as [m1 [[|b out]|]]; simpl in *;
      [|done|done].
    destruct (Hres [] eq_refl) as [img Himg]. by destruct (Hnonempty img).
Qed.

(** Text that is no JSON is ignored, and the handler goes on: a [ping]
    after it is answered. *)
Lemma malformed_text_is_ignored m sid bad ping items now now' :
  json_loads bad = None →
  json_loads ping = Some (JObj items) →
  dict_get items "command" = Some (JStr "ping") →
  on_message m sid (text_message bad) now = (m, [], Next)
  ∧ handler_loop m sid [(text_message bad, now); (text_message ping, now')]
    = (m, [send_json (JObj [("type", JStr "pong")])], Receiving).
Proof.
  intros Hbad Hping Hcmd.
  assert (on_message m sid (text_message bad) now = (m, [], Next)) as Hfirst.
  { unfold on_message; simpl. by rewrite Hbad. }
  split; [done|]. unfold handler_loop. rewrite Hfirst.
  unfold on_message; simpl. by rewrite Hping, Hcmd.
Qed.

(** A JSON object whose [command] is missing, or is neither ["stats"] nor
    ["ping"], is not answered, and the handler goes on. *)
Lemma other_command_is_ignored m sid text items now :
  json_loads text = Some (JObj items) →
  dict_get items "command" ≠ Some (JStr "stats") →
  dict_get items "command" ≠ Some (JStr "ping") →
  on_message m sid (text_message text) now = (m, [], Next).
Proof.
  intros Hparse Hstats Hping. unfold on_message; simpl. rewrite Hparse.
  destruct (dict_get items "command") as [[]|]; try done.
  repeat case_decide; by simplify_eq.
Qed.

(** C5, where the code departs from it. A text message that is valid JSON
    but not a JSON object (an array, a number, a string, a literal) has no
    [command] field; reading the field raises an exception that the handler
    does not catch, so the loop ends, the session is removed, and nothing
    that follows is answered. *)
Theorem non_object_json_ends_handler m sid text data now rest :
  json_loads text = Some data →
  (∀ items, data ≠ JObj items) →
  on_message m sid (text_message text) now = (m, [], Propagate)
  ∧ handler_loop m sid ((text_message text, now) :: rest)
    = (disconnect m sid, [], Failed).
Proof.
  intros Hparse Hnot.
  assert (on_message m sid (text_message text) now = (m, [], Propagate)) as Hmsg.
  { unfold on_message; simpl. rewrite Hparse.
    destruct data; try done. by destruct (Hnot items). }
  split; [done|]. simpl. by rewrite Hmsg.
Qed.

End Properties.

(** * Further properties of the streaming code *)

Section Coverage.
Context `{Libs : Libraries}.
Implicit Types (m : StreamManager) (s : StreamSession) (sid : string) (l : loc).

(** ** What an operation can modify *)

Lemma modifies_only_refl o m : modifies_only o m m.
Proof. by repeat split. Qed.

Lemma modifies_only_trans o m1 m2 m3 :
  modifies_only o m1 m2 → modifies_only o m2 m3 → modifies_only o m1 m3.
Proof.
  intros (Hs & Hlen & Hh) (Hs' & Hlen' & Hh'). repeat split; [congruence..|].
  intros l Hl. by rewrite Hh', Hh.
Qed.

Lemma modifies_only_update m l f : modifies_only (Some l) m (update m l f).
Proof.
  repeat split; simpl; [apply length_alter|].
  intros l' Hl'. apply list_lookup_alter_ne. congruence.
Qed.

Lemma modifies_only_store m g l s : modifies_only (Some l) m (store m g l s).
Proof.
  repeat split; simpl; [apply length_insert|].
  intros l' Hl'. apply list_lookup_insert_ne. congruence.
Qed.

Lemma set_target_face_modifies m sid data :
  modifies_only (sessions m !! sid) m (set_target_face m sid data).1.
Proof.
  unfold set_target_face. destruct (sessions m !! sid) as [l|] eqn:Hl; simpl;
    [|apply modifies_only_refl].
  destruct (imdecode data) as [[img|]|]; simpl;
    auto using modifies_only_refl, modifies_only_update.
Qed.

Lemma process_frame_begin_modifies m sid data :
  modifies_only (sessions m !! sid) m (process_frame_begin m sid data).1.
Proof.
  unfold process_frame_begin.
  destruct (get_session m sid) as [[l s]|] eqn:Hg; simpl; [|apply modifies_only_refl].
  apply get_session_Some in Hg as [-> _].
  destruct (is_processing s); simpl; [apply modifies_only_refl|].
  destruct (imdecode data) as [[frame|]|]; simpl;
    eauto using modifies_only_trans, modifies_only_update.
Qed.

Lemma process_frame_resume_modifies m l (frame : ndarray) now :
  modifies_only (Some l) m (process_frame_resume m l frame now).1.
Proof.
  destruct (heap m !! l) as [s|] eqn:Hs.
  - destruct (process_frame_resume_spec m l s frame now Hs) as (g & s' & r & -> & _).
    apply modifies_only_store.
  - unfold process_frame_resume. rewrite Hs. apply modifies_only_refl.
Qed.

Lemma process_frame_modifies m sid data now :
  modifies_only (sessions m !! sid) m (process_frame m sid data now).1.
Proof.
  pose proof (process_frame_begin_modifies m sid data) as Hbegin.
  unfold process_frame.
  destruct (process_frame_begin m sid data) as [m1 [r|l frame]] eqn:Hb; simpl in *;
    [done|].
  eapply modifies_only_trans; [done|].
  assert (sessions m !! sid = Some l) as ->.
  { revert Hb. unfold process_frame_begin.
    destruct (get_session m sid) as [[l' s]|] eqn:Hg; [|done].
    apply get_session_Some in Hg as [Hl _].
    destruct (is_processing s); [done|].
    destruct (imdecode data) as [[frame'|]|]; [|done..].
    by intros [= _ <- _]. }
  apply process_frame_resume_modifies.
Qed.

Lemma on_message_modifies m sid message now :
  modifies_only (sessions m !! sid) m (on_message m sid message now).1.1.
Proof.
  unfold on_message.
  case_decide; simpl; [apply modifies_only_refl|].
  destruct (msg_bytes message) as [frame_data|].
  - case_decide.
    + pose proof (set_target_face_modifies m sid (drop 4 frame_data)).
      by destruct (set_target_face m sid (drop 4 frame_data)).
    + pose proof (process_frame_modifies m sid frame_data now).
      by destruct (process_frame m sid frame_data now) as [m1 [[|b out]|]].
  - repeat case_match; simpl; apply modifies_only_refl.
Qed.

(** ** The registry over the life of a connection *)

Lemma sessions_disconnect m sid :
  sessions (disconnect m sid) = delete sid (sessions m).
Proof.
  unfold disconnect. destruct (sessions m !! sid) eqn:Hl; simpl; [done|].
  by rewrite delete_id.
Qed.

Lemma handler_loop_sessions sid incoming :
  ∀ m, sessions (handler_loop m sid incoming).1.1
       = match (handler_loop m sid incoming).2 with
         | Receiving => sessions m
         | Returned | Failed => delete sid (sessions m)
         end.
Proof.
  induction incoming as [|[message now] rest IH]; intros m; simpl; [done|].
  destruct (on_message_modifies m sid message now) as (Hs & _).
  destruct (on_message m sid message now) as [[m1 out] []]; simpl in *.
  - specialize (IH m1). destruct (handler_loop m1 sid rest) as [[m2 out'] st].
    simpl in *. by rewrite IH, Hs.
  - by rewrite sessions_disconnect, Hs.
  - by rewrite sessions_disconnect, Hs.
Qed.

(** X1. While [websocket_stream_handler] waits for a message, the registry
    is the one it found with its identifier bound to the session it
    created; once it has ended, by a disconnect message or by an exception,
    the registry is the one it found without its identifier. No message
    adds, removes or rebinds any other identifier. *)
Theorem handler_registers_until_it_ends m ws sid incoming :
  sessions (websocket_stream_handler m ws sid incoming).1.1
  = match (websocket_stream_handler m ws sid incoming).2 with
    | Receiving => <[sid := length (heap m)]> (sessions m)
    | Returned | Failed => delete sid (sessions m)
    end.
Proof.
  unfold websocket_stream_handler. rewrite handler_loop_sessions. simpl.
  destruct (handler_loop _ sid incoming).2; [done|apply delete_insert_eq..].
Qed.

(** ** Invariants of the reachable states *)

Lemma modifies_only_wf o m m' : modifies_only o m m' → wf m → wf m'.
Proof.
  intros (Hs & Hlen & _) Hwf sid l. rewrite Hs, Hlen. apply Hwf.
Qed.

Lemma modifies_only_distinct o m m' :
  modifies_only o m m' → distinct m → distinct m'.
Proof. intros (Hs & _) Hd sid1 sid2 l. rewrite Hs. apply Hd. Qed.

Lemma step_modifies_or_registry m m' :
  step m m' →
  (∃ o, modifies_only o m m')
  ∨ (∃ ws sid, m' = (connect m ws sid).1)
  ∨ (∃ sid, m' = disconnect m sid).
Proof.
  intros [m0 ws sid|m0 sid|m0 sid data|m0 sid data|m0 l frame now|m0 sid message now];
    eauto using set_target_face_modifies, process_frame_begin_modifies,
      process_frame_resume_modifies, on_message_modifies.
Qed.

Lemma step_invariant m m' :
  step m m' → wf m ∧ distinct m → wf m' ∧ distinct m'.
Proof.
  intros Hstep [Hwf Hd].
  destruct (step_modifies_or_registry m m' Hstep)
    as [[o Hmod]|[(ws & sid & ->)|(sid & ->)]].
  - eauto using modifies_only_wf, modifies_only_distinct.
  - split.
    + intros sid' l. simpl. rewrite length_app. simpl.
      destruct (decide (sid = sid')) as [->|Hne].
      * rewrite lookup_insert_eq. intros [= <-]. lia.
      * rewrite lookup_insert_ne by done. intros Hl%Hwf. simpl in Hl. lia.
    + intros sid1 sid2 l. simpl.
      destruct (decide (sid = sid1)) as [<-|Hne1];
        destruct (decide (sid = sid2)) as [<-|Hne2];
        rewrite ?lookup_insert_eq, ?lookup_insert_ne by done; try done.
      * intros [= <-] Hl%Hwf. simpl in Hl. lia.
      * intros Hl%Hwf [= <-]. simpl in Hl. lia.
      * apply Hd.
  - split.
    + intros sid' l. rewrite sessions_disconnect.
      assert (heap (disconnect m sid) = heap m) as ->
        by (unfold disconnect; by destruct (sessions m !! sid)).
      intros [_ Hl]%lookup_delete_Some. by apply Hwf in Hl.
    + intros sid1 sid2 l. rewrite sessions_disconnect.
      intros [_ H1]%lookup_delete_Some [_ H2]%lookup_delete_Some. eauto.
Qed.

Lemma reachable_wf_distinct m : reachable m → wf m ∧ distinct m.
Proof.
  revert m. apply (rtc_ind_r (λ m, wf m ∧ distinct m) stream_manager).
  - split; [intros sid l|intros sid1 sid2 l]; simpl; by rewrite lookup_empty.
  - intros m1 m2 _ Hstep IH. by eapply step_invariant.
Qed.

(** X2. In every state a server can reach, each registered identifier
    refers to a session object of the store (so its lookup succeeds and its
    statistics are the full three fields), and no two identifiers refer to
    the same object. *)
Theorem reachable_registry_is_sound m :
  reachable m →
  wf m
  ∧ distinct m
  ∧ ∀ sid, is_Some (sessions m !! sid) →
      is_Some (get_session m sid) ∧ length (get_stats m sid) = 3.
Proof.
  intros Hreach. destruct (reachable_wf_distinct m Hreach) as [Hwf Hd].
  do 2 (split; [done|]). intros sid [l Hl].
  destruct (lookup_lt_is_Some_2 (heap m) l) as [s Hs]; [by eapply Hwf|].
  assert (get_session m sid = Some (l, s)) as Hg by (by apply get_session_Some).
  split; [by eexists|]. unfold get_stats. by rewrite Hg.
Qed.

(** A handler run leads from reachable states to reachable states. *)
Lemma handler_loop_reachable sid incoming :
  ∀ m, reachable m → reachable (handler_loop m sid incoming).1.1.
Proof.
  induction incoming as [|[message now] rest IH]; intros m Hm; simpl; [done|].
  assert (reachable (on_message m sid message now).1.1) as Hm1.
  { eapply rtc_r; [exact Hm|constructor]. }
  destruct (on_message m sid message now) as [[m1 out] []]; simpl in *.
  - specialize (IH m1 Hm1). by destruct (handler_loop m1 sid rest) as [[m2 out'] st].
  - eapply rtc_r; [exact Hm1|constructor].
  - eapply rtc_r; [exact Hm1|constructor].
Qed.

Lemma stream_endpoint_reachable m ws session_id uuid4 incoming :
  reachable m → reachable (stream_endpoint m ws session_id uuid4 incoming).1.1.
Proof.
  intros Hm. unfold stream_endpoint, websocket_stream_handler.
  apply handler_loop_reachable. eapply rtc_r; [exact Hm|constructor].
Qed.

(** X3. A message handled for one session leaves every other registered
    session as it was: the registry is unchanged, and so are the object and
    the statistics of any other identifier. (The globals of
    [core.face_swap] are the only state that sessions share.) *)
Theorem message_leaves_other_sessions m sid message now sid' :
  distinct m →
  sid' ≠ sid →
  sessions (on_message m sid message now).1.1 = sessions m
  ∧ get_session (on_message m sid message now).1.1 sid' = get_session m sid'
  ∧ get_stats (on_message m sid message now).1.1 sid' = get_stats m sid'.
Proof.
  intros Hd Hne.
  destruct (on_message_modifies m sid message now) as (Hs & _ & Hh).
  assert (get_session (on_message m sid message now).1.1 sid' = get_session m sid')
    as Hg.
  { unfold get_session. rewrite Hs.
    destruct (sessions m !! sid') as [l'|] eqn:Hl'; simpl; [|done].
    rewrite Hh; [done|]. intros Hl. apply Hne. by eapply Hd. }
  split; [done|]. split; [done|]. unfold get_stats. by rewrite Hg.
Qed.

(** ** The statistics of a session *)

Lemma Qcminus_zero (x y : Qc) : (x - y = 0)%Qc → x = y.
Proof.
  intros H. assert (x = (x - y) + y)%Qc as -> by ring. rewrite H. ring.
Qed.

(** The counters after the second half of [process_frame], case by case. *)
Lemma process_frame_resume_statistics m l s (frame : ndarray) now :
  heap m !! l = Some s →
  ∃ g s' r,
    process_frame_resume m l frame now = (store m g l s', r)
    ∧ match r with
      | Some _ =>
          frames_processed s' = frames_processed s + 1
          ∧ last_frame_time s' = now
          ∧ fps s' = (if decide (0 < last_frame_time s)%Qc
                      then (1 / (now - last_frame_time s))%Qc else fps s)
      | None =>
          last_frame_time s' = last_frame_time s
          ∧ fps s' = fps s
          ∧ (frames_processed s' = frames_processed s
             ∨ (frames_processed s' = frames_processed s + 1
                ∧ (0 < last_frame_time s)%Qc ∧ now = last_frame_time s))
      end.
Proof.
  intros Hs. unfold process_frame_resume. rewrite Hs.
  destruct (_process_frame_internal_spec (face_swap m) s frame)
    as (g & s1 & out & -> & Hshape & _).
  assert (frames_processed s1 = frames_processed s
          ∧ last_frame_time s1 = last_frame_time s ∧ fps s1 = fps s)
    as (Hfp & Hlast & Hfps) by (by destruct Hshape as [->|[e ->]]).
  destruct (imencode out) as [buffer|]; simpl.
  - rewrite Hlast.
    destruct (decide (0 < last_frame_time s)%Qc) as [Hpos|Hpos].
    + destruct (decide (now - last_frame_time s = 0)%Qc) as [Htie|Htie];
        eexists _, _, _; (split; [reflexivity|]); simpl.
      * apply Qcminus_zero in Htie. rewrite Hlast, Hfps, Hfp. eauto 6.
      * by rewrite Hfp.
    + eexists _, _, _; (split; [reflexivity|]); simpl. by rewrite Hfp, Hfps.
  - eexists _, _, _; (split; [reflexivity|]); simpl. eauto.
Qed.

Lemma process_frame_statistics m sid l s data now :
  get_session m sid = Some (l, s) →
  ∃ s',
    get_session (process_frame m sid data now).1 sid = Some (l, s')
    ∧ is_processing s' = is_processing s
    ∧ match (process_frame m sid data now).2 with
      | Some _ =>
          frames_processed s' = frames_processed s + 1
          ∧ last_frame_time s' = now
          ∧ fps s' = (if decide (0 < last_frame_time s)%Qc
                      then (1 / (now - last_frame_time s))%Qc else fps s)
      | None =>
          last_frame_time s' = last_frame_time s
          ∧ fps s' = fps s
          ∧ (frames_processed s' = frames_processed s
             ∨ (frames_processed s' = frames_processed s + 1
                ∧ (0 < last_frame_time s)%Qc ∧ now = last_frame_time s))
      end.
Proof.
  intros Hg. destruct (is_processing s) eqn:Hflag.
  { rewrite (process_frame_busy m sid l s) by done. exists s. simpl. eauto 6. }
  destruct (imdecode data) as [[frame|]|] eqn:Hdec.
  2,3: rewrite (process_frame_undecodable m sid l s) by eauto;
       exists s; simpl; eauto 6.
  destruct (process_frame_idle m sid l s data now Hg Hflag)
    as (s0 & Hg0 & Hidle0 & _).
  unfold process_frame, process_frame_begin in *.
  rewrite Hg, Hflag, Hdec in *.
  pose proof (get_session_update _ _ _ _ (set_is_processing true) Hg) as Hg1.
  pose proof Hg1 as [_ Hs1]%get_session_Some.
  destruct (process_frame_resume_statistics _ _ _ frame now Hs1)
    as (g & s' & r & Hres & Hstat).
  rewrite Hres in *. simpl in *.
  rewrite (get_session_store _ g _ _ _ s' Hg1) in Hg0. simplify_eq.
  exists s0. split; [by eapply get_session_store|]. split; [done|].
  by destruct r.
Qed.

(** X4. A [process_frame] that returns a frame has counted it, has stamped
    the session with the clock reading of this frame, and has set the rate
    to the inverse of the time since the previous stamp; when there is no
    previous stamp (it is still 0, or not positive), the rate is left as
    it was. *)
Theorem returned_frame_updates_statistics m sid l s data now out :
  get_session m sid = Some (l, s) →
  (process_frame m sid data now).2 = Some out →
  ∃ s',
    get_session (process_frame m sid data now).1 sid = Some (l, s')
    ∧ frames_processed s' = frames_processed s + 1
    ∧ last_frame_time s' = now
    ∧ fps s' = (if decide (0 < last_frame_time s)%Qc
                then (1 / (now - last_frame_time s))%Qc else fps s).
Proof.
  intros Hg Hout.
  destruct (process_frame_statistics m sid l s data now Hg) as (s' & Hg' & _ & Hstat).
  rewrite Hout in Hstat. eauto.
Qed.

(** X5. A [process_frame] that returns [None] leaves the time stamp and the
    rate of the session as they were, and leaves [frames_processed] as it
    was unless the clock reading of this frame equals the positive stamp of
    the previous one; in that one case the counter has moved by one. *)
Theorem dropped_frame_keeps_statistics m sid l s data now :
  get_session m sid = Some (l, s) →
  (process_frame m sid data now).2 = None →
  ∃ s',
    get_session (process_frame m sid data now).1 sid = Some (l, s')
    ∧ last_frame_time s' = last_frame_time s
    ∧ fps s' = fps s
    ∧ (frames_processed s' = frames_processed s
       ∨ (frames_processed s' = frames_processed s + 1
          ∧ (0 < last_frame_time s)%Qc ∧ now = last_frame_time s)).
Proof.
  intros Hg Hnone.
  destruct (process_frame_statistics m sid l s data now Hg) as (s' & Hg' & _ & Hstat).
  rewrite Hnone in Hstat. eauto.
Qed.

Lemma clock_advances_le (t t' : timestamp) frames :
  (t' ≤ t)%Qc → clock_advances t frames → clock_advances t' frames.
Proof.
  destruct frames as [|[data now] rest]; simpl; [done|].
  intros Hle [Hlt Hrest]. split; [|done]. by eapply Qcle_lt_trans.
Qed.

(** X6. Over frames processed one at a time, [frames_processed] grows by at
    least the number of frames returned and at most the number of frames
    received. *)
Theorem counter_between_outputs_and_inputs sid frames :
  ∀ m l s,
    get_session m sid = Some (l, s) →
    ∃ s',
      get_session (process_frames m sid frames).1 sid = Some (l, s')
      ∧ (frames_processed s + length (omap id (process_frames m sid frames).2)
         ≤ frames_processed s')%nat
      ∧ (frames_processed s' ≤ frames_processed s + length frames)%nat.
Proof.
  induction frames as [|[data now] rest IH]; intros m l s Hg; simpl.
  { exists s. split; [done|]. simpl. lia. }
  destruct (process_frame_statistics m sid l s data now Hg)
    as (s1 & Hg1 & _ & Hstat).
  destruct (process_frame m sid data now) as [m1 r]; simpl in *.
  destruct (IH m1 l s1 Hg1) as (s' & Hg' & Hlo & Hhi).
  destruct (process_frames m1 sid rest) as [m2 rs]; simpl in *.
  exists s'. split; [done|].
  unfold omap in *. destruct r as [out|]; simpl.
  - destruct Hstat as (Hone & _). lia.
  - destruct Hstat as (_ & _ & [Hsame|(Hone & _)]); lia.
Qed.

(** X7. When the clock reading of every frame is later than that of the
    frame before (and the first one later than the stamp the session
    carries), [frames_processed] grows by exactly the number of frames
    returned. *)
Theorem counter_counts_outputs_when_clock_advances sid frames :
  ∀ m l s,
    get_session m sid = Some (l, s) →
    clock_advances (last_frame_time s) frames →
    ∃ s',
      get_session (process_frames m sid frames).1 sid = Some (l, s')
      ∧ frames_processed s'
        = frames_processed s + length (omap id (process_frames m sid frames).2).
Proof.
  induction frames as [|[data now] rest IH]; intros m l s Hg Hclock; simpl.
  { exists s. split; [done|]. simpl. lia. }
  destruct Hclock as [Hlt Hrest].
  destruct (process_frame_statistics m sid l s data now Hg)
    as (s1 & Hg1 & _ & Hstat).
  destruct (process_frame m sid data now) as [m1 r]; simpl in *.
  assert (clock_advances (last_frame_time s1) rest) as Hrest1.
  { destruct r as [out|].
    - by destruct Hstat as (_ & -> & _).
    - destruct Hstat as (-> & _). eapply clock_advances_le; [|done].
      by apply Qclt_le_weak. }
  destruct (IH m1 l s1 Hg1 Hrest1) as (s' & Hg' & Hcount).
  destruct (process_frames m1 sid rest) as [m2 rs]; simpl in *.
  exists s'. split; [done|]. rewrite Hcount.
  unfold omap. destruct r as [out|]; simpl.
  - destruct Hstat as (Hone & _). lia.
  - destruct Hstat as (_ & _ & [Hsame|(_ & _ & Htie)]); [lia|].
    by apply Qclt_not_eq in Hlt.
Qed.

(** ** The face swap step *)

(** Closes the cases in which the face swap step hands the frame back. *)
Local Ltac hand_back :=
  eexists _, _, _; (split; [reflexivity|]);
  (split; [first [by left|by right]|]);
  (split; [first [by left|right; by eauto 15]|]); by left.

(** What the face swap step returns, case by case: it hands the frame
    back, or it has both models, a face in the frame and an embedding, and
    returns what the swapper made of them. The session changes only by
    gaining an embedding, which is then the first face found in its
    reference image. *)
Lemma _process_frame_internal_cases (g : FaceSwapGlobals) s (frame : ndarray) :
  ∃ g' s' out,
    _process_frame_internal g s frame = (g', s', out)
    ∧ (g' = g ∨ (_face_analysis g = false ∧ g' = (_init_models g).1))
    ∧ (s' = s
       ∨ ∃ t e fs,
           _target_embedding s = None
           ∧ target_face s = Some t
           ∧ face_analysis_get t = Ret (e :: fs)
           ∧ s' = set_target_embedding e s)
    ∧ (out = frame
       ∨ ∃ f fs e,
           face_swap_importable = true
           ∧ _face_analysis g = true
           ∧ _swapper g = true
           ∧ face_analysis_get frame = Ret (f :: fs)
           ∧ _target_embedding s' = Some e
           ∧ swapper_get frame f e = Ret out).
Proof.
  unfold _process_frame_internal.
  destruct (target_face s) as [t|] eqn:Ht; [|hand_back].
  destruct face_swap_importable eqn:Himp; simpl; [|hand_back].
  destruct (_face_analysis g) eqn:Han; simpl; [|hand_back].
  destruct (_target_embedding s) as [e|] eqn:He.
  - destruct (face_analysis_get frame) as [[|f fs]|] eqn:Hf;
      [hand_back| |hand_back].
    destruct (_swapper g) eqn:Hsw; simpl; [|hand_back].
    destruct (swapper_get frame f e) as [result|] eqn:Hres; [|hand_back].
    eexists _, _, _. split; [done|]. split; [by left|]. split; [by left|].
    right. exists f, fs, e. done.
  - destruct (face_analysis_get t) as [[|e fs]|] eqn:Hemb;
      [hand_back| |hand_back].
    destruct (face_analysis_get frame) as [[|f fs']|] eqn:Hf;
      [hand_back| |hand_back].
    destruct (_swapper g) eqn:Hsw; simpl; [|hand_back].
    destruct (swapper_get frame f e) as [result|] eqn:Hres; [|hand_back].
    eexists _, _, _. split; [done|]. split; [by left|].
    split; [right; by eauto 15|]. right. exists f, fs', e. done.
Qed.

(** X8. Whenever the face swap step returns something else than the frame
    it was given, both models are bound, the detector found a face in the
    frame, and the result is what the swapper returned for the frame, the
    first face found in it and the embedding the session carries. *)
Theorem substituted_frame_is_swapper_output (g : FaceSwapGlobals) s (frame : ndarray) :
  (_process_frame_internal g s frame).2 = frame
  ∨ ∃ f fs e,
      _face_analysis g = true
      ∧ _swapper g = true
      ∧ face_analysis_get frame = Ret (f :: fs)
      ∧ _target_embedding (_process_frame_internal g s frame).1.2 = Some e
      ∧ swapper_get frame f e = Ret (_process_frame_internal g s frame).2.
Proof.
  destruct (_process_frame_internal_cases g s frame)
    as (g' & s' & out & -> & _ & _ & [->|(f & fs & e & _ & ? & ? & ? & ? & ?)]);
    simpl; [by left|]. right. eauto 10.
Qed.

(** X9. A frame processed while the models are still unbound runs
    [_init_models] and is never substituted, whether the initialisation
    succeeds or not: on an idle session with a reference face, the result,
    when there is one, is the encoding of the decoded input frame, no
    embedding is cached, and the globals are those [_init_models] leaves. *)
Theorem initialising_frame_passes_through m sid l s data (frame : ndarray) now :
  get_session m sid = Some (l, s) →
  is_processing s = false →
  is_Some (target_face s) →
  face_swap_importable = true →
  _face_analysis (face_swap m) = false →
  imdecode data = Ret (Some frame) →
  ∃ s',
    get_session (process_frame m sid data now).1 sid = Some (l, s')
    ∧ _target_embedding s' = _target_embedding s
    ∧ face_swap (process_frame m sid data now).1 = (_init_models (face_swap m)).1
    ∧ ∀ out, (process_frame m sid data now).2 = Some out → imencode frame = Ret out.
Proof.
  intros Hg Hidle [t Ht] Himp Han Hdec.
  unfold process_frame, process_frame_begin. rewrite Hg, Hidle, Hdec.
  pose proof (get_session_update _ _ _ _ (set_is_processing true) Hg) as Hg1.
  pose proof Hg1 as [_ Hs1]%get_session_Some.
  unfold process_frame_resume. rewrite Hs1.
  unfold _process_frame_internal. simpl. rewrite Ht, Himp, Han. simpl.
  destruct (imencode frame) as [buffer|]; simpl; repeat case_decide; simpl;
    eexists; (split; [by eapply get_session_store|]); simpl;
    (split; [done|]); (split; [done|]); by intros out [= <-].
Qed.

(** X10. When the first initialisation binds the analyser and then fails
    on the swapper model, the globals stay like that: [_init_models]
    returns at once without raising and without binding the swapper, and
    the face swap step hands every frame back unmodified. *)
Theorem missing_swapper_is_never_retried (g : FaceSwapGlobals) :
  init_models_result = InitNoSwapper →
  _face_analysis g = false →
  _swapper g = false →
  (_init_models g).2 = true
  ∧ _init_models (_init_models g).1 = ((_init_models g).1, false)
  ∧ ∀ s (frame : ndarray),
      (_process_frame_internal (_init_models g).1 s frame).1.1 = (_init_models g).1
      ∧ (_process_frame_internal (_init_models g).1 s frame).2 = frame.
Proof.
  intros Hinit Han Hsw.
  assert (_init_models g = ({| _face_analysis := true; _swapper := false |}, true))
    as -> by (unfold _init_models; by rewrite Han, Hinit, Hsw).
  simpl. split; [done|]. split; [done|]. intros s frame.
  destruct (_process_frame_internal_cases
              {| _face_analysis := true; _swapper := false |} s frame)
    as (g' & s' & out & -> & [->|[? _]] & _ & [->|(f & fs & e & _ & _ & ? & _)]);
    done.
Qed.

(** ** A session over the run of its handler *)

Lemma process_frame_session m sid l s data now :
  get_session m sid = Some (l, s) →
  ∃ s',
    get_session (process_frame m sid data now).1 sid = Some (l, s')
    ∧ websocket s' = websocket s
    ∧ target_face s' = target_face s
    ∧ is_processing s' = is_processing s
    ∧ (_target_embedding s' = _target_embedding s
       ∨ ∃ t e fs,
           _target_embedding s = None
           ∧ target_face s = Some t
           ∧ face_analysis_get t = Ret (e :: fs)
           ∧ _target_embedding s' = Some e).
Proof.
  intros Hg. destruct (is_processing s) eqn:Hflag.
  { rewrite (process_frame_busy m sid l s) by done. exists s. eauto 10. }
  destruct (imdecode data) as [[frame|]|] eqn:Hdec.
  2,3: rewrite (process_frame_undecodable m sid l s) by eauto;
       exists s; simpl; eauto 10.
  unfold process_frame, process_frame_begin. rewrite Hg, Hflag, Hdec.
  pose proof (get_session_update _ _ _ _ (set_is_processing true) Hg) as Hg1.
  pose proof Hg1 as [_ Hs1]%get_session_Some.
  unfold process_frame_resume. rewrite Hs1.
  destruct (_process_frame_internal_cases (face_swap (update m l (set_is_processing true)))
              (set_is_processing true s) frame)
    as (g' & s1 & out & -> & _ & Hshape & _).
  assert (websocket s1 = websocket s ∧ target_face s1 = target_face s
          ∧ (_target_embedding s1 = _target_embedding s
             ∨ ∃ t e fs, _target_embedding s = None ∧ target_face s = Some t
                 ∧ face_analysis_get t = Ret (e :: fs)
                 ∧ _target_embedding s1 = Some e))
    as (Hws & Htf & Hemb).
  { destruct Hshape as [->|(t & e & fs & ? & ? & ? & ->)]; simpl; eauto 10. }
  destruct (imencode out) as [buffer|]; simpl; repeat case_decide; simpl;
    eexists; (split; [by eapply get_session_store|]); simpl; eauto.
Qed.

Lemma on_message_session m sid message now l s :
  get_session m sid = Some (l, s) →
  ∃ s',
    get_session (on_message m sid message now).1.1 sid = Some (l, s')
    ∧ websocket s' = websocket s
    ∧ is_processing s' = is_processing s
    ∧ (is_Some (target_face s) → is_Some (target_face s'))
    ∧ (∀ e, _target_embedding s = Some e → _target_embedding s' = Some e).
Proof.
  intros Hg. unfold on_message.
  case_decide; simpl; [eauto 10|].
  destruct (msg_bytes message) as [frame_data|].
  - case_decide.
    + pose proof Hg as [Hl Hs]%get_session_Some.
      unfold set_target_face. rewrite Hl.
      destruct (imdecode (drop 4 frame_data)) as [[img|]|]; simpl; eauto 10.
      eexists. split; [by apply get_session_update|]. simpl. eauto 10.
    + destruct (process_frame_session m sid l s frame_data now Hg)
        as (s' & Hg' & Hws & Htf & Hflag & Hemb).
      exists s'.
      split; [by destruct (process_frame m sid frame_data now) as [m1 [[|b out]|]]|].
      split; [done|]. split; [done|]. split; [by rewrite Htf|].
      intros e He. destruct Hemb as [->|(? & ? & ? & ? & _)]; congruence.
  - repeat case_match; simpl; eauto 10.
Qed.

(** X11. Over any run of a handler, whether it is still receiving or has
    ended, the session object it serves keeps its connection handle and its
    busy flag, keeps having a reference face once it has one, and keeps the
    embedding it has cached, whatever reference images arrive later. *)
Theorem handler_run_preserves_session sid incoming :
  ∀ m l s,
    get_session m sid = Some (l, s) →
    ∃ s',
      heap (handler_loop m sid incoming).1.1 !! l = Some s'
      ∧ websocket s' = websocket s
      ∧ is_processing s' = is_processing s
      ∧ (is_Some (target_face s) → is_Some (target_face s'))
      ∧ (∀ e, _target_embedding s = Some e → _target_embedding s' = Some e).
Proof.
  assert (∀ m, heap (disconnect m sid) = heap m) as Hheap.
  { intros m. unfold disconnect. by destruct (sessions m !! sid). }
  induction incoming as [|[message now] rest IH]; intros m l s Hg; simpl.
  { apply get_session_Some in Hg as [_ Hs]. eauto 10. }
  destruct (on_message_session m sid message now l s Hg)
    as (s1 & Hg1 & Hws & Hflag & Htf & Hemb).
  destruct (on_message m sid message now) as [[m1 out] []]; simpl in *.
  - destruct (IH m1 l s1 Hg1) as (s' & Hs' & Hws' & Hflag' & Htf' & Hemb').
    destruct (handler_loop m1 sid rest) as [[m2 out'] st]; simpl in *.
    exists s'. split; [done|]. split; [congruence|]. split; [congruence|].
    split; [by intros ?%Htf%Htf'|]. intros e He. by apply Hemb', Hemb.
  - rewrite Hheap. apply get_session_Some in Hg1 as [_ Hs1].
    exists s1. by repeat split.
  - rewrite Hheap. apply get_session_Some in Hg1 as [_ Hs1].
    exists s1. by repeat split.
Qed.

(** X12. The embedding a session caches while a frame is processed is the
    first face the detector finds in the reference image the session holds
    at that moment; a frame never changes the reference image, and never
    replaces an embedding that is already cached. *)
Theorem cached_embedding_is_first_face_of_reference m sid l s data now :
  get_session m sid = Some (l, s) →
  ∃ s',
    get_session (process_frame m sid data now).1 sid = Some (l, s')
    ∧ target_face s' = target_face s
    ∧ (_target_embedding s' = _target_embedding s
       ∨ ∃ t e fs,
           _target_embedding s = None
           ∧ target_face s = Some t
           ∧ face_analysis_get t = Ret (e :: fs)
           ∧ _target_embedding s' = Some e).
Proof.
  intros Hg.
  destruct (process_frame_session m sid l s data now Hg)
    as (s' & Hg' & _ & Htf & _ & Hemb). eauto.
Qed.

(** ** Replies *)

Lemma on_message_replies m sid message now :
  (length (on_message m sid message now).1.2 ≤ 1)%nat.
Proof.
  unfold on_message. case_decide; simpl; [lia|].
  destruct (msg_bytes message) as [frame_data|].
  - case_decide.
    + destruct (set_target_face m sid (drop 4 frame_data)); simpl; lia.
    + destruct (process_frame m sid frame_data now) as [m1 [[|b out]|]]; simpl; lia.
  - repeat case_match; simpl; lia.
Qed.

(** X13. A handler writes at most one message to its connection for each
    message it has received. *)
Theorem at_most_one_reply_per_message sid incoming :
  ∀ m, (length (handler_loop m sid incoming).1.2 ≤ length incoming)%nat.
Proof.
  induction incoming as [|[message now] rest IH]; intros m; simpl; [lia|].
  pose proof (on_message_replies m sid message now) as Hone.
  destruct (on_message m sid message now) as [[m1 out] []]; simpl in *; [|lia..].
  specialize (IH m1). destruct (handler_loop m1 sid rest) as [[m2 out'] st].
  simpl in *. rewrite length_app. lia.
Qed.

Lemma process_frame_answers m sid l s data (frame : ndarray) now :
  get_session m sid = Some (l, s) →
  is_processing s = false →
  imdecode data = Ret (Some frame) →
  (∀ img, imencode img ≠ Raise) →
  ¬ ((0 < last_frame_time s)%Qc ∧ now = last_frame_time s) →
  is_Some (process_frame m sid data now).2.
Proof.
  intros Hg Hidle Hdec Henc Htie.
  unfold process_frame, process_frame_begin. rewrite Hg, Hidle, Hdec.
  pose proof (get_session_update _ _ _ _ (set_is_processing true) Hg) as Hg1.
  pose proof Hg1 as [_ Hs1]%get_session_Some.
  unfold process_frame_resume. rewrite Hs1.
  destruct (_process_frame_internal_spec
              (face_swap (update m l (set_is_processing true)))
              (set_is_processing true s) frame)
    as (g & s1 & out & -> & Hshape & _).
  assert (last_frame_time s1 = last_frame_time s) as Hlast
    by (by destruct Hshape as [->|[e ->]]).
  destruct (imencode out) as [buffer|] eqn:Hout; [|by destruct (Henc out)].
  simpl. rewrite Hlast.
  destruct (decide (0 < last_frame_time s)%Qc) as [Hpos|Hpos]; [|by eexists].
  destruct (decide (now - last_frame_time s = 0)%Qc) as [Hz|Hz]; [|by eexists].
  destruct Htie. split; [done|]. by apply Qcminus_zero.
Qed.

(** X15. On an idle session, a frame that decodes is answered with a frame
    whenever the encoder returns, except when the clock reading equals the
    positive time stamp of the previous frame. *)
Theorem decodable_frame_is_answered m sid l s data (frame : ndarray) now :
  get_session m sid = Some (l, s) →
  is_processing s = false →
  imdecode data = Ret (Some frame) →
  (∀ img, imencode img ≠ Raise) →
  ¬ ((0 < last_frame_time s)%Qc ∧ now = last_frame_time s) →
  is_Some (process_frame m sid data now).2.
Proof.
  intros Hg Hidle Hdec Henc Htie.
  destruct (process_frame_answers m sid l s data frame now Hg Hidle Hdec Henc Htie)
    as [out Hout].
  by exists out.
Qed.

Lemma handler_loop_cons m sid message now rest :
  handler_loop m sid ((message, now) :: rest)
  = match on_message m sid message now with
    | (m1, out, Next) =>
        let '(m2, out', st) := handler_loop m1 sid rest in
        (m2, (out ++ out')%list, st)
    | (m1, out, Break) => (disconnect m1 sid, out, Returned)
    | (m1, out, Propagate) => (disconnect m1 sid, out, Failed)
    end.
Proof. done. Qed.

Lemma round1_zero : round1 0 = 0%Qc.
Proof. apply Qc_is_canon. reflexivity. Qed.

(** X16. The statistics of a session that has just been created: no frame
    processed, rate 0, no reference face. *)
Theorem new_session_statistics m ws sid :
  get_stats (connect m ws sid).1 sid
  = [("frames_processed", JInt 0); ("fps", JFloat 0);
     ("has_target_face", JBool false)].
Proof.
  unfold get_stats. rewrite get_session_connect. simpl.
  by rewrite round1_zero.
Qed.

(** X17. The first exchange of a connection: a reference image that
    decodes, then a frame that decodes, then a [stats] command. Given an
    encoder that returns a non-empty buffer for every image, the handler
    answers, in this order, [face_set] with success, one binary frame, and
    statistics that count one frame, give the rate 0 and report the
    reference face. *)
Theorem first_exchange m ws sid face img data (frame : ndarray) text items t1 t2 t3 :
  imdecode face = Ret (Some img) →
  take 4 data ≠ FACE →
  imdecode data = Ret (Some frame) →
  (∀ x, imencode x ≠ Raise ∧ imencode x ≠ Ret []) →
  json_loads text = Some (JObj items) →
  dict_get items "command" = Some (JStr "stats") →
  ∃ m' out,
    websocket_stream_handler m ws sid
      [(binary_message (FACE ++ face)%list, t1);
       (binary_message data, t2);
       (text_message text, t3)]
    = (m',
       [send_json (JObj [("type", JStr "face_set"); ("success", JBool true)]);
        send_bytes out;
        send_json (JObj [("type", JStr "stats");
                         ("frames_processed", JInt 1);
                         ("fps", JFloat 0);
                         ("has_target_face", JBool true)])],
       Receiving).
Proof.
  intros Hface Hmark Hdec Henc Hparse Hcmd.
  unfold websocket_stream_handler.
  pose proof (get_session_connect m ws sid) as Hg0.
  set (m0 := (connect m ws sid).1) in *. set (l := length (heap m)) in *.
  (* the reference image *)
  assert (on_message m0 sid (binary_message (FACE ++ face)%list) t1
          = (update m0 l (set_target_face_field img),
             [send_json (JObj [("type", JStr "face_set"); ("success", JBool true)])],
             Next)) as Hm1.
  { unfold on_message; simpl. rewrite drop_0. unfold set_target_face.
    pose proof Hg0 as [-> _]%get_session_Some. by rewrite Hface. }
  pose proof (get_session_update _ _ _ _ (set_target_face_field img) Hg0) as Hg1.
  set (m1 := update m0 l (set_target_face_field img)) in *.
  set (s1 := set_target_face_field img (new_session ws)) in *.
  (* the frame *)
  destruct (process_frame_answers m1 sid l s1 data frame t2 Hg1 eq_refl Hdec)
    as [out Hout].
  { intros x. by destruct (Henc x). }
  { intros [Hpos _]. exact (Qclt_not_eq _ _ Hpos eq_refl). }
  destruct (process_frame_statistics m1 sid l s1 data t2 Hg1)
    as (s2 & Hg2 & _ & Hstat).
  destruct (process_frame_session m1 sid l s1 data t2 Hg1)
    as (s2' & Hg2' & _ & Htf & _).
  rewrite Hg2 in Hg2'. simplify_eq. rewrite Hout in Hstat.
  destruct Hstat as (Hfp & _ & Hfps). rewrite decide_False in Hfps
    by (intros Hpos; exact (Qclt_not_eq _ _ Hpos eq_refl)).
  pose proof (process_frame_result m1 sid data t2 out Hout) as [x Hx].
  assert (∃ b rest, out = b :: rest) as (b & rest & ->).
  { destruct out as [|b rest]; [|by eauto]. by destruct (Henc x) as [_ []]. }
  assert (on_message m1 sid (binary_message data) t2
          = ((process_frame m1 sid data t2).1, [send_bytes (b :: rest)], Next))
    as Hm2.
  { unfold on_message; simpl. rewrite decide_False by done.
    destruct (process_frame m1 sid data t2) as [m2 r]. simpl in *. by subst r. }
  set (m2 := (process_frame m1 sid data t2).1) in *.
  (* the statistics *)
  assert (get_stats m2 sid
          = [("frames_processed", JInt 1); ("fps", JFloat 0);
             ("has_target_face", JBool true)]) as Hstats.
  { unfold get_stats. rewrite Hg2, Hfp, Hfps, Htf. simpl.
    by rewrite round1_zero. }
  exists m2, (b :: rest).
  rewrite handler_loop_cons, Hm1, handler_loop_cons, Hm2, handler_loop_cons.
  unfold on_message; simpl. by rewrite Hparse, Hcmd, Hstats.
Qed.

(** ** Reference images *)

(** X18. The last reference image wins: setting a reference image after
    another one, when the second decodes, gives the state and the result
    that setting the second alone gives. In particular setting the same
    decodable image twice is the same as setting it once. *)
Theorem last_reference_image_wins m sid data1 data2 img :
  imdecode data2 = Ret (Some img) →
  set_target_face (set_target_face m sid data1).1 sid data2
  = set_target_face m sid data2.
Proof.
  intros Hdec. unfold set_target_face.
  destruct (sessions m !! sid) as [l|] eqn:Hl; simpl; [|by rewrite Hl].
  destruct (imdecode data1) as [[img1|]|]; simpl; rewrite Hl, Hdec; [|done..].
  by rewrite update_update.
Qed.

(** ** The listing *)

(** X19. The listing route reports as many active sessions as it lists
    entries, lists no identifier twice, and lists exactly the identifiers
    of the registry, each with its current statistics. *)
Theorem listing_matches_registry m :
  (list_stream_sessions m).1 = length (list_stream_sessions m).2
  ∧ NoDup (list_stream_sessions m).2.*1
  ∧ ∀ sid stats,
      (sid, stats) ∈ (list_stream_sessions m).2
      ↔ is_Some (sessions m !! sid) ∧ stats = get_stats m sid.
Proof.
  unfold list_stream_sessions; simpl. split; [|split].
  - by rewrite !length_fmap, length_map_to_list.
  - rewrite <-list_fmap_compose.
    rewrite (list_fmap_ext _ id (map_to_list (sessions m)).*1) by done.
    rewrite list_fmap_id. apply NoDup_fst_map_to_list.
  - intros sid stats. rewrite list_elem_of_fmap. split.
    + intros (k & [= -> ->] & Hk).
      apply list_elem_of_fmap in Hk as ([k' l] & -> & Hk).
      apply elem_of_map_to_list in Hk. split; [by exists l|done].
    + intros [[l Hl] ->]. exists sid. split; [done|].
      apply list_elem_of_fmap. exists (sid, l). split; [done|].
      by apply elem_of_map_to_list.
Qed.

(** ** The endpoint *)

(** X20. An empty [session_id] is treated like an absent one: the handler
    runs under the generated identifier. As long as that one is not empty,
    the endpoint neither registers nor removes a session under the empty
    identifier. *)
Theorem empty_session_id_is_replaced m ws uuid4 incoming session_id :
  uuid4 ≠ "" →
  stream_endpoint m ws (Some "") uuid4 incoming
  = stream_endpoint m ws None uuid4 incoming
  ∧ sessions (stream_endpoint m ws session_id uuid4 incoming).1.1 !! ""
    = sessions m !! "".
Proof.
  intros Huuid. split; [done|]. unfold stream_endpoint.
  set (sid := match session_id with
              | Some sid => if decide (sid = "") then uuid4 else sid
              | None => uuid4
              end).
  assert (sid ≠ "") as Hsid.
  { unfold sid. destruct session_id as [sid'|]; [|done]. by case_decide. }
  unfold websocket_stream_handler. rewrite handler_loop_sessions. simpl.
  destruct (handler_loop _ sid incoming).2.
  - by rewrite lookup_insert_ne.
  - by rewrite lookup_delete_ne, lookup_insert_ne.
  - by rewrite lookup_delete_ne, lookup_insert_ne.
Qed.

End Coverage.

(** * Properties of batch face swapping *)

Section BatchProperties.
Context `{Libs : Libraries}.
Implicit Types (self : FaceSwap.FaceSwapper) (g : FaceSwapGlobals).

(** X21. [swap_frame] returns exactly in two ways, both with a target
    loaded and the analyser bound: flagged [False] with the frame it was
    given, when the detector finds no face in it; flagged [True] with what
    the swapper returns for the frame, the first face found and the target,
    when the swapper is bound. In every other case it raises. *)
Theorem swap_frame_returns_iff self g (frame out : ndarray) (success : bool) :
  FaceSwap.swap_frame self g frame = Ret (out, success)
  ↔ ∃ target,
      FaceSwap.target_face self = Some target
      ∧ _face_analysis g = true
      ∧ ((success = false ∧ face_analysis_get frame = Ret [] ∧ out = frame)
         ∨ (success = true
            ∧ _swapper g = true
            ∧ ∃ f fs,
                face_analysis_get frame = Ret (f :: fs)
                ∧ swapper_get frame f target = Ret out)).
Proof.
  unfold FaceSwap.swap_frame. split.
  - destruct (FaceSwap.target_face self) as [target|]; [|done].
    destruct (_face_analysis g); simpl; [|done].
    destruct (face_analysis_get frame) as [[|f fs]|]; [| |done].
    + intros [= <- <-]. exists target. eauto 10.
    + destruct (_swapper g); simpl; [|done].
      destruct (swapper_get frame f target) as [result|] eqn:Hres; [|done].
      intros [= <- <-]. exists target. do 2 (split; [done|]). right. eauto 10.
  - intros (target & -> & -> & [(-> & -> & ->)|(-> & -> & f & fs & -> & Hres)]);
      simpl; [done|]. by rewrite Hres.
Qed.

(** The progress calls of a loop that starts with [frame_count] frames
    behind it and goes over [n] more. *)
Lemma progress_calls_cons (total_frames : Z) (frame_count n : nat) :
  (λ k, (k, total_frames))
    <$> filter (λ k, k mod 10 = 0) (seq (frame_count + 1) (S n))
  = ((if ((frame_count + 1) mod 10 =? 0)%nat
      then [(frame_count + 1, total_frames)] else [])
     ++ ((λ k, (k, total_frames))
           <$> filter (λ k, k mod 10 = 0) (seq (frame_count + 1 + 1) n)))%list.
Proof.
  replace (frame_count + 1 + 1) with (S (frame_count + 1)) by lia.
  simpl seq. rewrite filter_cons.
  destruct (Nat.eqb_spec ((frame_count + 1) mod 10) 0) as [Heq|Hne].
  - by rewrite decide_True.
  - by rewrite decide_False.
Qed.

(** The loop over frames that all swap: everything is written, in order. *)
Lemma swap_video_loop_returns self g cb total_frames frames :
  Forall (λ frame, FaceSwap.swap_frame self g frame ≠ Raise) frames →
  ∀ frame_count swapped_count,
    ∃ written swapped,
      FaceSwap.swap_video_loop self g cb total_frames frames
        frame_count swapped_count
      = (written,
         if cb
         then (λ k, (k, total_frames))
                <$> filter (λ k, k mod 10 = 0)
                      (seq (frame_count + 1) (length frames))
         else [],
         Ret (frame_count + length frames, swapped))
      ∧ Forall2 (λ frame out, ∃ success,
                   FaceSwap.swap_frame self g frame = Ret (out, success))
          frames written.
Proof.
  induction 1 as [|frame frames Hok _ IH]; intros frame_count swapped_count.
  { exists [], swapped_count. simpl. rewrite Nat.add_0_r.
    split; [by destruct cb|constructor]. }
  cbn [FaceSwap.swap_video_loop].
  destruct (FaceSwap.swap_frame self g frame) as [[out success]|] eqn:Hswap;
    [|done].
  destruct (IH (frame_count + 1)
              (if success then swapped_count + 1 else swapped_count))
    as (written & swapped & -> & Hall).
  exists (out :: written), swapped. split.
  - cbn [length]. rewrite progress_calls_cons.
    replace (frame_count + 1 + length frames) with (frame_count + S (length frames))
      by lia.
    by destruct cb.
  - constructor; [by exists success|done].
Qed.

(** The loop up to the first frame whose [swap_frame] raises. *)
Lemma swap_video_loop_raises self g cb total_frames done_frames frame rest :
  Forall (λ frame, FaceSwap.swap_frame self g frame ≠ Raise) done_frames →
  FaceSwap.swap_frame self g frame = Raise →
  ∀ frame_count swapped_count,
    ∃ written progress,
      FaceSwap.swap_video_loop self g cb total_frames
        (done_frames ++ frame :: rest) frame_count swapped_count
      = (written, progress, Raise)
      ∧ Forall2 (λ frame out, ∃ success,
                   FaceSwap.swap_frame self g frame = Ret (out, success))
          done_frames written.
Proof.
  intros Hok Hbad.
  induction Hok as [|frame' frames Hok' _ IH]; intros frame_count swapped_count.
  { simpl. rewrite Hbad. exists [], []. split; [done|constructor]. }
  cbn [app FaceSwap.swap_video_loop].
  destruct (FaceSwap.swap_frame self g frame') as [[out success]|] eqn:Hswap;
    [|done].
  destruct (IH (frame_count + 1)
              (if success then swapped_count + 1 else swapped_count))
    as (written & progress & -> & Hall).
  eexists (out :: written), _. split; [done|].
  constructor; [by exists success|done].
Qed.

Lemma all_swap_or_first_failure self g (frames : list ndarray) :
  Forall (λ frame, FaceSwap.swap_frame self g frame ≠ Raise) frames
  ∨ ∃ done_frames frame rest,
      frames = (done_frames ++ frame :: rest)%list
      ∧ Forall (λ frame, FaceSwap.swap_frame self g frame ≠ Raise) done_frames
      ∧ FaceSwap.swap_frame self g frame = Raise.
Proof.
  induction frames as [|frame frames IH]; [by left|].
  destruct (FaceSwap.swap_frame self g frame) as [r|] eqn:Hr.
  - destruct IH as [Hok|(done_frames & frame' & rest & -> & Hok & Hraise)].
    + left. constructor; [by rewrite Hr|done].
    + right. exists (frame :: done_frames), frame', rest.
      split; [done|]. split; [|done]. constructor; [by rewrite Hr|done].
  - right. exists [], frame, frames. by repeat split.
Qed.

(** X22. [swap_video] returns if and only if a target is loaded, the video
    could be opened, it has at least one frame, and [swap_frame] returns
    for every frame. In particular a video that opens but has no frame
    makes it raise (the summary line divides by the number of frames). *)
Theorem swap_video_returns_iff self g capture total_frames cb :
  (FaceSwap.swap_video self g capture total_frames cb).2 = Ret tt
  ↔ is_Some (FaceSwap.target_face self)
    ∧ ∃ frames,
        capture = Some frames
        ∧ frames ≠ []
        ∧ Forall (λ frame, FaceSwap.swap_frame self g frame ≠ Raise) frames.
Proof.
  unfold FaceSwap.swap_video.
  destruct (FaceSwap.target_face self) as [target|] eqn:Htarget; simpl;
    [|split; [done|by intros [[? [=]] _]]].
  destruct capture as [frames|]; simpl;
    [|split; [done|by intros [_ (? & [=] & _)]]].
  destruct (all_swap_or_first_failure self g frames)
    as [Hok|(done_frames & frame & rest & -> & Hok & Hraise)].
  - destruct (swap_video_loop_returns self g cb total_frames frames Hok 0 0)
      as (written & swapped & -> & _). simpl.
    destruct frames as [|frame frames]; simpl.
    + split; [done|]. by intros [_ (? & [= <-] & ? & _)].
    + split; [|done]. intros _. split; [by eexists|]. by exists (frame :: frames).
  - destruct (swap_video_loop_raises self g cb total_frames done_frames frame rest
                Hok Hraise 0 0) as (written & progress & -> & _). simpl.
    split; [done|]. intros [_ (frames & [= <-] & _ & Hall)].
    apply Forall_app in Hall as [_ Hall].
    apply Forall_inv in Hall. by destruct Hall.
Qed.

(** X23. When [swap_video] returns, it has written one frame for each
    frame of the video, in order, each being what [swap_frame] returned for
    it, and it has called the progress callback, when there is one, at the
    frame counts that are multiples of ten, in order, each time with the
    frame count the container announces. *)
Theorem swap_video_writes_every_frame self g frames total_frames cb written progress :
  FaceSwap.swap_video self g (Some frames) total_frames cb
  = (written, progress, Ret tt) →
  Forall2 (λ frame out, ∃ success,
             FaceSwap.swap_frame self g frame = Ret (out, success))
    frames written
  ∧ progress
    = if cb
      then (λ k, (k, total_frames))
             <$> filter (λ k, k mod 10 = 0) (seq 1 (length frames))
      else [].
Proof.
  unfold FaceSwap.swap_video.
  destruct (FaceSwap.target_face self) as [target|]; [|done].
  destruct (all_swap_or_first_failure self g frames)
    as [Hok|(done_frames & frame & rest & -> & Hok & Hraise)].
  - destruct (swap_video_loop_returns self g cb total_frames frames Hok 0 0)
      as (written' & swapped & -> & Hall). simpl.
    case_match; [done|]. by intros [= <- <-].
  - by destruct (swap_video_loop_raises self g cb total_frames done_frames frame
                   rest Hok Hraise 0 0) as (written' & progress' & -> & _).
Qed.

(** X24. When [swap_frame] raises at some frame of the video, [swap_video]
    raises, having written exactly the frames before that one, each as
    [swap_frame] returned it. *)
Theorem swap_video_stops_at_first_failure
    self g done_frames (frame : ndarray) rest total_frames cb :
  is_Some (FaceSwap.target_face self) →
  Forall (λ frame, FaceSwap.swap_frame self g frame ≠ Raise) done_frames →
  FaceSwap.swap_frame self g frame = Raise →
  (FaceSwap.swap_video self g (Some (done_frames ++ frame :: rest)%list)
     total_frames cb).2 = Raise
  ∧ Forall2 (λ frame out, ∃ success,
               FaceSwap.swap_frame self g frame = Ret (out, success))
      done_frames
      (FaceSwap.swap_video self g (Some (done_frames ++ frame :: rest)%list)
         total_frames cb).1.1.
Proof.
  intros [target Htarget] Hok Hraise. unfold FaceSwap.swap_video. rewrite Htarget.
  by destruct (swap_video_loop_raises self g cb total_frames done_frames frame rest
                 Hok Hraise 0 0) as (written & progress & -> & Hall).
Qed.

(** X25. [load_target_face] changes the swapper only when it returns
    [True], and then the target is the first face the detector found in
    the image; when it returns [False] (an image without a face) or raises
    (no file, no image, analyser unbound or failing), the target loaded
    before is kept. *)
Theorem load_target_face_sets_first_face self g (file : option (option ndarray)) :
  match (FaceSwap.load_target_face self g file).2 with
  | Ret true =>
      ∃ img f fs,
        file = Some (Some img)
        ∧ face_analysis_get img = Ret (f :: fs)
        ∧ FaceSwap.target_face (FaceSwap.load_target_face self g file).1 = Some f
  | Ret false =>
      (∃ img, file = Some (Some img) ∧ face_analysis_get img = Ret [])
      ∧ (FaceSwap.load_target_face self g file).1 = self
  | Raise => (FaceSwap.load_target_face self g file).1 = self
  end.
Proof.
  unfold FaceSwap.load_target_face.
  destruct file as [[img|]|]; simpl; [|done..].
  destruct (_face_analysis g); simpl; [|done].
  destruct (face_analysis_get img) as [[|f fs]|] eqn:Hfaces; simpl; eauto 10.
Qed.

(** X26. When the first construction of a [FaceSwapper] fails on the
    missing swapper model, a second construction succeeds without loading
    it, and the swapper so obtained raises on every frame in which a face
    is found, once a target is loaded. *)
Theorem second_construction_hides_missing_swapper g :
  init_models_result = InitNoSwapper →
  _face_analysis g = false →
  _swapper g = false →
  (FaceSwap.create_face_swapper g).2 = Raise
  ∧ FaceSwap.create_face_swapper (FaceSwap.create_face_swapper g).1
    = ((FaceSwap.create_face_swapper g).1,
       Ret {| FaceSwap.target_face := None |})
  ∧ ∀ self (frame : ndarray) f fs,
      is_Some (FaceSwap.target_face self) →
      face_analysis_get frame = Ret (f :: fs) →
      FaceSwap.swap_frame self (FaceSwap.create_face_swapper g).1 frame = Raise.
Proof.
  intros Hinit Han Hsw.
  assert (FaceSwap.create_face_swapper g
          = ({| _face_analysis := true; _swapper := false |}, Raise)) as ->.
  { unfold FaceSwap.create_face_swapper, _init_models.
    by rewrite Han, Hinit, Hsw. }
  simpl. split; [done|]. split; [done|].
  intros self frame f fs [target Htarget] Hfaces.
  unfold FaceSwap.swap_frame. by rewrite Htarget, Hfaces.
Qed.

End BatchProperties.

(** * The properties on the small installation *)

Import Demo Inputs.

(** C9 on a concrete registry: ["s1"] is listed before its removal and not
    after it, and the second removal changes nothing. *)
Lemma disconnect_twice_run :
  (list_stream_sessions fresh).2.*1 = ["s1"]
  ∧ (list_stream_sessions (disconnect fresh "s1")).2.*1 = []
  ∧ disconnect (disconnect fresh "s1") "s1" = disconnect fresh "s1".
Proof.
  split; [reflexivity|]. split; reflexivity.
Qed.

(** C10 at the identifier ["nobody"], which [fresh] does not register. *)
Lemma unknown_session_is_noop_witness :
  sessions fresh !! "nobody" = None
  ∧ set_target_face fresh "nobody" face_a = (fresh, false)
  ∧ process_frame fresh "nobody" frame1 (at_second 1) = (fresh, None)
  ∧ get_stats fresh "nobody" = []
  ∧ on_message fresh "nobody" (text_message (command_text "stats")) (at_second 1)
    = (fresh, [send_json (JObj [("type", JStr "stats")])], Next).
Proof.
  split; [reflexivity|].
  destruct (unknown_session_is_noop fresh "nobody" face_a (at_second 1) eq_refl)
    as (Hset & _ & Hstats & Hreply).
  destruct (unknown_session_is_noop fresh "nobody" frame1 (at_second 1) eq_refl)
    as (_ & Hframe & _).
  split; [exact Hset|]. split; [exact Hframe|]. split; [exact Hstats|].
  exact (Hreply (command_text "stats") [("command", JStr "stats")] eq_refl eq_refl).
Defined.

(** C6 as stated fails: ["s1"] is registered, with two frames processed,
    and creating ["s1"] again succeeds, binding the identifier to another,
    new session with no frame processed. *)
Lemma connect_silently_replaces_session :
  frames_processed <$> (snd <$> get_session warmed_up "s1") = Some 2
  ∧ fst <$> get_session warmed_up "s1" = Some 0
  ∧ (connect warmed_up 8 "s1").2 = 1
  ∧ get_session (connect warmed_up 8 "s1").1 "s1" = Some (1, new_session 8)
  ∧ get_session (connect warmed_up 8 "s1").1 "s1" ≠ get_session warmed_up "s1".
Proof.
  assert (get_session (connect warmed_up 8 "s1").1 "s1" = Some (1, new_session 8))
    as Hnew by reflexivity.
  do 3 (split; [reflexivity|]). split; [exact Hnew|].
  rewrite Hnew. intros Heq.
  assert (fst <$> get_session warmed_up "s1" = Some 1) as Habs
    by (by rewrite <-Heq).
  vm_compute in Habs. discriminate Habs.
Qed.

(** C6 as amended, on the session of [fresh]. *)
Lemma connect_replaces_existing_witness :
  wf fresh
  ∧ get_session fresh "s1" = Some (0, new_session 7)
  ∧ ∃ m' l,
      connect fresh 8 "s1" = (m', l)
      ∧ l ≠ 0
      ∧ get_session m' "s1" = Some (l, new_session 8)
      ∧ heap m' !! 0 = Some (new_session 7)
      ∧ size (sessions m') = size (sessions fresh)
      ∧ ∀ sid', sid' ≠ "s1" → sessions m' !! sid' = sessions fresh !! sid'.
Proof.
  assert (wf fresh) as Hwf by (apply (bool_decide_unpack (wf fresh)); vm_compute; exact I).
  split; [exact Hwf|]. split; [reflexivity|].
  exact (connect_replaces_existing fresh 8 "s1" 0 (new_session 7) Hwf eq_refl).
Defined.

(** C3 as stated fails: a JPEG image in which the detector finds no face
    is accepted, the operation returns true, and it replaces the reference
    image stored before. *)
Lemma faceless_reference_is_accepted :
  let m := (set_target_face fresh "s1" face_a).1 in
  imdecode faceless = Ret (Some [x00; x00])
  ∧ face_analysis_get ([x00; x00] : ndarray) = Ret []
  ∧ (set_target_face m "s1" faceless).2 = true
  ∧ target_face <$> (snd <$> get_session m "s1") = Some (Some [x00; x01])
  ∧ target_face <$> (snd <$> get_session (set_target_face m "s1" faceless).1 "s1")
    = Some (Some [x00; x00])
  ∧ set_target_face m "s1" faceless ≠ (m, false).
Proof.
  cbv zeta. do 5 (split; [reflexivity|]).
  intros Heq.
  assert ((set_target_face (set_target_face fresh "s1" face_a).1 "s1" faceless).2
          = false) as Habs by (by rewrite Heq).
  vm_compute in Habs. discriminate Habs.
Qed.

(** C3 as amended, at an undecodable payload and at the faceless image. *)
Lemma set_target_face_checks_decoding_only_witness :
  sessions fresh !! "s1" = Some 0
  ∧ set_target_face fresh "s1" [x00; x01; x02] = (fresh, false)
  ∧ set_target_face fresh "s1" faceless
    = (update fresh 0 (set_target_face_field ([x00; x00] : ndarray)), true).
Proof.
  split; [reflexivity|]. split.
  - exact (set_target_face_checks_decoding_only fresh "s1" 0 [x00; x01; x02] eq_refl).
  - exact (set_target_face_checks_decoding_only fresh "s1" 0 faceless eq_refl).
Defined.

(** C2 as stated fails: a PNG frame sent to a session without reference
    face comes back as a JPEG stream, which is not the bytes that were sent. *)
Lemma passthrough_is_not_byte_identical :
  (process_frames fresh "s1" [(png [x09], at_second 1)]).2 = [Some (jpg [x09])]
  ∧ ¬ Forall2 (λ input result, ∀ out, result = Some out → out = input.1)
        [(png [x09], at_second 1)]
        (process_frames fresh "s1" [(png [x09], at_second 1)]).2.
Proof.
  assert ((process_frames fresh "s1" [(png [x09], at_second 1)]).2
          = [Some (jpg [x09])]) as Hrun by reflexivity.
  split; [exact Hrun|]. rewrite Hrun. intros Hall.
  apply Forall2_cons_1 in Hall as [Hhead _].
  specialize (Hhead _ eq_refl). vm_compute in Hhead. discriminate Hhead.
Qed.


(** C7 at its failing input: the second frame of [streaming] finds the
    clock at second 2 again. *)
Lemma counter_moves_although_update_fails_witness :
  get_session streaming "s1" = Some (0, streaming_session)
  ∧ last_frame_time streaming_session = at_second 2
  ∧ frames_processed streaming_session = 1
  ∧ ∃ s',
      (process_frame streaming "s1" frame1 (at_second 2)).2 = None
      ∧ get_session (process_frame streaming "s1" frame1 (at_second 2)).1 "s1"
        = Some (0, s')
      ∧ frames_processed s' = 2.
Proof.
  split; [reflexivity|]. split; [reflexivity|]. split; [reflexivity|].
  exact (counter_moves_although_update_fails streaming "s1" 0 streaming_session
           frame1 [x00; x05; x00] frame1
           eq_refl eq_refl eq_refl eq_refl eq_refl eq_refl).
Defined.

(** C8 on [fresh]: a reference image behind the marker, and a frame. *)
Lemma binary_message_dispatch_witness :
  (∀ img : ndarray, imencode img ≠ Ret [])
  ∧ on_message fresh "s1" (binary_message (FACE ++ face_a)%list) (at_second 1)
    = ((set_target_face fresh "s1" face_a).1,
       [send_json (JObj [("type", JStr "face_set"); ("success", JBool true)])],
       Next)
  ∧ on_message fresh "s1" (binary_message frame1) (at_second 1)
    = ((process_frame fresh "s1" frame1 (at_second 1)).1,
       [send_bytes frame1], Next).
Proof.
  assert (∀ img : ndarray, imencode img ≠ Ret []) as Hnonempty
    by (intros img Himg; discriminate Himg).
  split; [exact Hnonempty|]. split.
  - exact (proj1 (binary_message_dispatch fresh "s1" (FACE ++ face_a)%list
                    (at_second 1) Hnonempty) face_a eq_refl).
  - refine (proj2 (binary_message_dispatch fresh "s1" frame1
                     (at_second 1) Hnonempty) _).
    intros [rest Hrest]. discriminate Hrest.
Defined.

(** C5 at its failing input: the text [[]], followed by a [ping] that is
    never answered. *)
Lemma non_object_json_ends_handler_witness :
  json_loads "[]" = Some (JArr [])
  ∧ handler_loop fresh "s1"
      [(text_message "[]", at_second 1);
       (text_message (command_text "ping"), at_second 2)]
    = (disconnect fresh "s1", [], Failed).
Proof.
  split; [reflexivity|].
  refine (proj2 (non_object_json_ends_handler fresh "s1" "[]" (JArr [])
                   (at_second 1) _ eq_refl _)).
  intros items Hitems. discriminate Hitems.
Defined.

(** The tolerant paths of the text protocol, on [fresh]. *)
Lemma malformed_text_run :
  handler_loop fresh "s1"
    [(text_message "not json", at_second 1);
     (text_message (command_text "ping"), at_second 2)]
  = (fresh, [send_json (JObj [("type", JStr "pong")])], Receiving).
Proof.
  exact (proj2 (malformed_text_is_ignored fresh "s1" "not json" (command_text "ping")
                  [("command", JStr "ping")] (at_second 1) (at_second 2)
                  eq_refl eq_refl eq_refl)).
Qed.

(** C1 at its failing input: [warmed_up] has cached the face of [face_a];
    after [face_b] is accepted as the new reference, [frame1] still comes
    back with the face of [face_a], although the detector finds another
    face in [face_b], with which the swapper gives another frame. *)
Lemma new_reference_keeps_cached_embedding_witness :
  get_session warmed_up "s1" = Some (0, warmed_up_session)
  ∧ _target_embedding warmed_up_session = Some x01
  ∧ face_analysis_get ([x02; x00] : ndarray) = Ret [x02]
  ∧ swapper_get ([x00; x05; x00] : ndarray) x05 x02 = Ret [x00; x02; x00]
  ∧ (process_frame (set_target_face warmed_up "s1" face_b).1 "s1" frame1
       (at_second 5)).2 = Some (jpg [x00; x01; x00])
  ∧ ∃ s',
      (set_target_face warmed_up "s1" face_b).2 = true
      ∧ get_session (set_target_face warmed_up "s1" face_b).1 "s1" = Some (0, s')
      ∧ target_face s' = Some [x02; x00]
      ∧ _target_embedding s' = Some x01
      ∧ _process_frame_internal
          (face_swap (set_target_face warmed_up "s1" face_b).1) s'
          ([x00; x05; x00] : ndarray)
        = (face_swap warmed_up, s', [x00; x01; x00]).
Proof.
  do 5 (split; [reflexivity|]).
  exact (new_reference_keeps_cached_embedding warmed_up "s1" 0 warmed_up_session
           x01 face_b [x02; x00] [x00; x05; x00] x05 [] [x00; x01; x00]
           eq_refl eq_refl eq_refl eq_refl eq_refl eq_refl eq_refl eq_refl).
Defined.

(** * Further properties on the small installation *)

(** X2 on [fresh], which is reached by one [connect]. *)
Lemma reachable_registry_is_sound_witness :
  reachable fresh
  ∧ wf fresh
  ∧ distinct fresh
  ∧ ∀ sid, is_Some (sessions fresh !! sid) →
      is_Some (get_session fresh sid) ∧ length (get_stats fresh sid) = 3.
Proof.
  assert (reachable fresh) as Hreach
    by exact (rtc_once _ _ (step_connect stream_manager 7 "s1")).
  exact (conj Hreach (reachable_registry_is_sound fresh Hreach)).
Defined.

(** X3 on [two_sessions]: a frame for ["s1"] leaves ["s2"] alone. *)
Lemma message_leaves_other_sessions_witness :
  distinct two_sessions
  ∧ "s2" ≠ "s1"
  ∧ get_stats (on_message two_sessions "s1" (binary_message frame1)
                 (at_second 2)).1.1 "s2"
    = get_stats two_sessions "s2".
Proof.
  assert (reachable two_sessions) as Hreach.
  { eapply rtc_l; [exact (step_connect stream_manager 7 "s1")|].
    exact (rtc_once _ _ (step_connect fresh 8 "s2")). }
  assert (distinct two_sessions) as Hd by apply (reachable_wf_distinct _ Hreach).
  assert ("s2" ≠ "s1") as Hne by discriminate.
  split; [exact Hd|]. split; [exact Hne|].
  exact (proj2 (proj2 (message_leaves_other_sessions two_sessions "s1"
                         (binary_message frame1) (at_second 2) "s2" Hd Hne))).
Defined.

(** X4 on [streaming]: a second frame one second after the first. *)
Lemma returned_frame_updates_statistics_witness :
  get_session streaming "s1" = Some (0, streaming_session)
  ∧ (process_frame streaming "s1" frame1 (at_second 3)).2 = Some frame1
  ∧ ∃ s',
      get_session (process_frame streaming "s1" frame1 (at_second 3)).1 "s1"
      = Some (0, s')
      ∧ frames_processed s' = 2
      ∧ last_frame_time s' = at_second 3
      ∧ fps s' = (1 / (at_second 3 - at_second 2))%Qc.
Proof.
  split; [reflexivity|]. split; [reflexivity|].
  exact (returned_frame_updates_statistics streaming "s1" 0 streaming_session
           frame1 (at_second 3) frame1 eq_refl eq_refl).
Defined.

(** X5 on [streaming]: a payload that is no image. *)
Lemma dropped_frame_keeps_statistics_witness :
  get_session streaming "s1" = Some (0, streaming_session)
  ∧ (process_frame streaming "s1" [x00; x01] (at_second 3)).2 = None
  ∧ ∃ s',
      get_session (process_frame streaming "s1" [x00; x01] (at_second 3)).1 "s1"
      = Some (0, s')
      ∧ last_frame_time s' = last_frame_time streaming_session
      ∧ fps s' = fps streaming_session
      ∧ (frames_processed s' = frames_processed streaming_session
         ∨ (frames_processed s' = frames_processed streaming_session + 1
            ∧ (0 < last_frame_time streaming_session)%Qc
            ∧ at_second 3 = last_frame_time streaming_session)).
Proof.
  split; [reflexivity|]. split; [reflexivity|].
  exact (dropped_frame_keeps_statistics streaming "s1" 0 streaming_session
           [x00; x01] (at_second 3) eq_refl eq_refl).
Defined.

(** X6 on [fresh]: a frame, a payload that is no image, a frame. *)
Lemma counter_between_outputs_and_inputs_witness :
  get_session fresh "s1" = Some (0, new_session 7)
  ∧ ∃ s',
      get_session
        (process_frames fresh "s1"
           [(frame1, at_second 1); ([x00], at_second 2); (frame1, at_second 3)]).1
        "s1" = Some (0, s')
      ∧ (2 ≤ frames_processed s')%nat
      ∧ (frames_processed s' ≤ 3)%nat.
Proof.
  split; [reflexivity|].
  exact (counter_between_outputs_and_inputs "s1"
           [(frame1, at_second 1); ([x00], at_second 2); (frame1, at_second 3)]
           fresh 0 (new_session 7) eq_refl).
Defined.

(** X7 on [fresh], with the clock at seconds 1, 2 and 3. *)
Lemma counter_counts_outputs_when_clock_advances_witness :
  clock_advances 0
    [(frame1, at_second 1); ([x00], at_second 2); (frame1, at_second 3)]
  ∧ ∃ s',
      get_session
        (process_frames fresh "s1"
           [(frame1, at_second 1); ([x00], at_second 2); (frame1, at_second 3)]).1
        "s1" = Some (0, s')
      ∧ frames_processed s' = 2.
Proof.
  assert (clock_advances 0
            [(frame1, at_second 1); ([x00], at_second 2); (frame1, at_second 3)])
    as Hclock by (repeat split; reflexivity).
  split; [exact Hclock|].
  exact (counter_counts_outputs_when_clock_advances "s1"
           [(frame1, at_second 1); ([x00], at_second 2); (frame1, at_second 3)]
           fresh 0 (new_session 7) eq_refl Hclock).
Defined.

(** X9 on a server that has just started: the first frame after the
    reference image. *)
Lemma initialising_frame_passes_through_witness :
  get_session referenced "s1" = Some (0, with_reference)
  ∧ face_swap referenced = unbound
  ∧ ∃ s',
      get_session (process_frame referenced "s1" frame1 (at_second 2)).1 "s1"
      = Some (0, s')
      ∧ _target_embedding s' = None
      ∧ face_swap (process_frame referenced "s1" frame1 (at_second 2)).1 = bound
      ∧ ∀ out,
          (process_frame referenced "s1" frame1 (at_second 2)).2 = Some out →
          imencode ([x00; x05; x00] : ndarray) = Ret out.
Proof.
  split; [reflexivity|]. split; [reflexivity|].
  refine (initialising_frame_passes_through referenced "s1" 0 with_reference
            frame1 [x00; x05; x00] (at_second 2)
            eq_refl eq_refl _ eq_refl eq_refl eq_refl).
  by eexists.
Defined.

(** X10 on the installation without the swapper model. *)
Lemma missing_swapper_is_never_retried_witness :
  (@_init_models libraries_without_swapper unbound).2 = true
  ∧ @_init_models libraries_without_swapper half_bound = (half_bound, false)
  ∧ ∀ (s : @StreamSession libraries_without_swapper) (frame : bytes),
      (@_process_frame_internal libraries_without_swapper half_bound s frame).1.1
      = half_bound
      ∧ (@_process_frame_internal libraries_without_swapper half_bound s frame).2
        = frame.
Proof.
  exact (@missing_swapper_is_never_retried libraries_without_swapper unbound
           eq_refl eq_refl eq_refl).
Defined.

(** X11 on [warmed_up]: a new reference image, a frame and a disconnect. *)
Lemma handler_run_preserves_session_witness :
  get_session warmed_up "s1" = Some (0, warmed_up_session)
  ∧ ∃ s',
      heap (handler_loop warmed_up "s1"
              [(binary_message (FACE ++ face_b)%list, at_second 4);
               (binary_message frame1, at_second 5);
               (disconnect_message, at_second 6)]).1.1 !! 0 = Some s'
      ∧ websocket s' = 7
      ∧ is_processing s' = false
      ∧ is_Some (target_face s')
      ∧ _target_embedding s' = Some x01.
Proof.
  split; [reflexivity|].
  destruct (handler_run_preserves_session "s1"
              [(binary_message (FACE ++ face_b)%list, at_second 4);
               (binary_message frame1, at_second 5);
               (disconnect_message, at_second 6)]
              warmed_up 0 warmed_up_session eq_refl)
    as (s' & Hs' & Hws & Hflag & Htf & Hemb).
  exists s'. split; [exact Hs'|]. split; [exact Hws|]. split; [exact Hflag|].
  split; [apply Htf; by eexists|]. apply Hemb. reflexivity.
Defined.

(** X12 on [second_reference]: the session ["s2"] has the reference image
    of [face_b] and no embedding yet, and the models are bound. *)
Lemma cached_embedding_is_first_face_of_reference_witness :
  get_session second_reference "s2" = Some (1, second_reference_session)
  ∧ _target_embedding second_reference_session = None
  ∧ _target_embedding
      <$> (snd <$> get_session
             (process_frame second_reference "s2" frame1 (at_second 9)).1 "s2")
    = Some (Some x02)
  ∧ ∃ s',
      get_session (process_frame second_reference "s2" frame1 (at_second 9)).1 "s2"
      = Some (1, s')
      ∧ target_face s' = target_face second_reference_session
      ∧ (_target_embedding s' = _target_embedding second_reference_session
         ∨ ∃ t e fs,
             _target_embedding second_reference_session = None
             ∧ target_face second_reference_session = Some t
             ∧ face_analysis_get t = Ret (e :: fs)
             ∧ _target_embedding s' = Some e).
Proof.
  do 3 (split; [reflexivity|]).
  exact (cached_embedding_is_first_face_of_reference second_reference "s2" 1
           second_reference_session frame1 (at_second 9) eq_refl).
Defined.

(** X15 on [fresh]. *)
Lemma decodable_frame_is_answered_witness :
  get_session fresh "s1" = Some (0, new_session 7)
  ∧ imdecode frame1 = Ret (Some [x00; x05; x00])
  ∧ is_Some (process_frame fresh "s1" frame1 (at_second 1)).2.
Proof.
  split; [reflexivity|]. split; [reflexivity|].
  refine (decodable_frame_is_answered fresh "s1" 0 (new_session 7) frame1
            [x00; x05; x00] (at_second 1) eq_refl eq_refl eq_refl _ _).
  - intros img Himg. discriminate Himg.
  - intros [Hpos _]. exact (Qclt_not_eq _ _ Hpos eq_refl).
Defined.

(** X17 on a server that has just started. *)
Lemma first_exchange_witness :
  ∃ m' out,
    websocket_stream_handler stream_manager 7 "s1"
      [(binary_message (FACE ++ face_a)%list, at_second 1);
       (binary_message frame1, at_second 2);
       (text_message (command_text "stats"), at_second 3)]
    = (m',
       [send_json (JObj [("type", JStr "face_set"); ("success", JBool true)]);
        send_bytes out;
        send_json (JObj [("type", JStr "stats");
                         ("frames_processed", JInt 1);
                         ("fps", JFloat 0);
                         ("has_target_face", JBool true)])],
       Receiving).
Proof.
  refine (first_exchange stream_manager 7 "s1" face_a [x00; x01] frame1
            [x00; x05; x00] (command_text "stats") [("command", JStr "stats")]
            (at_second 1) (at_second 2) (at_second 3)
            eq_refl _ eq_refl _ eq_refl eq_refl).
  - intros Hmark. discriminate Hmark.
  - intros x. split; intros Hx; discriminate Hx.
Defined.

(** X18 on [fresh]: [face_a], then [face_b]. *)
Lemma last_reference_image_wins_witness :
  imdecode face_b = Ret (Some [x02; x00])
  ∧ set_target_face (set_target_face fresh "s1" face_a).1 "s1" face_b
    = set_target_face fresh "s1" face_b.
Proof.
  split; [reflexivity|].
  exact (last_reference_image_wins fresh "s1" face_a face_b [x02; x00] eq_refl).
Defined.

(** X20 with a generated identifier. *)
Lemma empty_session_id_is_replaced_witness :
  stream_endpoint stream_manager 7 (Some "") "0b7e" [(disconnect_message, at_second 1)]
  = stream_endpoint stream_manager 7 None "0b7e" [(disconnect_message, at_second 1)]
  ∧ sessions (stream_endpoint stream_manager 7 (Some "") "0b7e"
                [(disconnect_message, at_second 1)]).1.1 !! ""
    = sessions stream_manager !! "".
Proof.
  refine (empty_session_id_is_replaced stream_manager 7 "0b7e"
            [(disconnect_message, at_second 1)] (Some "") _).
  intros Huuid. discriminate Huuid.
Defined.

(** X23 on a video of ten frames, with a progress callback. *)
Lemma swap_video_writes_every_frame_witness :
  FaceSwap.swap_video loaded bound (Some ten_frames) 10 true
  = ([[x00]; [x00]; [x01]; [x00]; [x00]; [x00]; [x00]; [x00]; [x00]; [x00]],
     [(10, 10%Z)], Ret tt)
  ∧ Forall2 (λ frame out, ∃ success,
               FaceSwap.swap_frame loaded bound frame = Ret (out, success))
      ten_frames
      [[x00]; [x00]; [x01]; [x00]; [x00]; [x00]; [x00]; [x00]; [x00]; [x00]].
Proof.
  split; [reflexivity|].
  exact (proj1 (swap_video_writes_every_frame loaded bound ten_frames 10 true
                  _ _ eq_refl)).
Defined.

(** X24 with the swapper unbound: the third frame shows a face. *)
Lemma swap_video_stops_at_first_failure_witness :
  (FaceSwap.swap_video loaded half_bound (Some ten_frames) 10 true).2 = Raise
  ∧ (FaceSwap.swap_video loaded half_bound (Some ten_frames) 10 true).1.1
    = [[x00]; [x00]].
Proof.
  split; [|reflexivity].
  refine (proj1 (swap_video_stops_at_first_failure loaded half_bound
                   [[x00]; [x00]] [x05]
                   [[x00]; [x00]; [x00]; [x00]; [x00]; [x00]; [x00]]
                   10 true _ _ eq_refl)).
  - by eexists.
  - repeat constructor; intros Hx; discriminate Hx.
Defined.

(** X26 on the installation without the swapper model. *)
Lemma second_construction_hides_missing_swapper_witness :
  (@FaceSwap.create_face_swapper libraries_without_swapper unbound).2 = Raise
  ∧ @FaceSwap.create_face_swapper libraries_without_swapper half_bound
    = (half_bound, Ret (@FaceSwap.Build_FaceSwapper libraries_without_swapper None))
  ∧ @FaceSwap.swap_frame libraries_without_swapper
      (@FaceSwap.Build_FaceSwapper libraries_without_swapper (Some x01))
      half_bound [x05] = Raise.
Proof.
  destruct (@second_construction_hides_missing_swapper libraries_without_swapper
              unbound eq_refl eq_refl eq_refl) as (Hfirst & Hsecond & Hswap).
  split; [exact Hfirst|]. split; [exact Hsecond|].
  refine (Hswap (@FaceSwap.Build_FaceSwapper libraries_without_swapper (Some x01))
            [x05] x05 [] _ eq_refl).
  by eexists.
Defined.
